(** * Team-member lifecycle of projectify-app-api

    A shallow embedding of [src/services/team-member.service.js] and
    [src/controllers/team-member.controller.js], followed by the properties
    of the account lifecycle that the specification states about them.

    The persistent store (the Prisma [teamMember] table) is a list of rows in
    insertion order; every asynchronous service method is a computation in a
    state-and-exception monad over the store and a log of external effects.
    An exception keeps the writes that happened before it, as in JavaScript. *)

From Stdlib Require Import String Ascii List Bool Arith Lia.
From stdpp Require Import base option list strings gmap.
Import ListNotations.

Local Open Scope string_scope.
Local Open Scope list_scope.

(** ** Data model *)

(** The [status] column (an enumeration in the Prisma schema). *)
Inductive Status := INACTIVE | ACTIVE | DEACTIVATED.

Global Instance Status_eq_dec : EqDecision Status.
Proof. solve_decision. Defined.

Definition status_name (s : Status) : string :=
  match s with
  | INACTIVE => "INACTIVE"
  | ACTIVE => "ACTIVE"
  | DEACTIVATED => "DEACTIVATED"
  end.

(** A row of the [teamMember] table; [password] and [inviteToken] are
    nullable columns. The projections are qualified ([TeamMember.adminId
    teamMember] for [teamMember.adminId]) so that the methods below can keep
    the parameter names of the source. *)
Module TeamMember.
Record t := mk {
  id : string;
  adminId : string;
  firstName : string;
  lastName : string;
  position : string;
  joinDate : string;
  email : string;
  password : option string;
  inviteToken : option string;
  status : Status
}.
End TeamMember.

Abbreviation TeamMember := TeamMember.t.

(** Values of a JavaScript object returned to the caller. *)
Inductive Value := VString (s : string) | VNull.

Abbreviation JsObject := (gmap string Value).

Definition nullable (o : option string) : Value :=
  match o with Some s => VString s | None => VNull end.

(** The columns of a row, by name. *)
Definition columns (tm : TeamMember) : list (string * Value) :=
  [ ("id", VString (TeamMember.id tm));
    ("adminId", VString (TeamMember.adminId tm));
    ("firstName", VString (TeamMember.firstName tm));
    ("lastName", VString (TeamMember.lastName tm));
    ("position", VString (TeamMember.position tm));
    ("joinDate", VString (TeamMember.joinDate tm));
    ("email", VString (TeamMember.email tm));
    ("password", nullable (TeamMember.password tm));
    ("inviteToken", nullable (TeamMember.inviteToken tm));
    ("status", VString (status_name (TeamMember.status tm))) ].

(** Prisma's [select: { f: true, ... }]: the object holding exactly the
    selected columns. *)
Definition select (fields : list string) (tm : TeamMember) : JsObject :=
  list_to_map (filter (λ kv, kv.1 ∈ fields) (columns tm)).

(** ** Errors and results *)

(** What an [await] can throw: the service's own [CustomError(message,
    statusCode)], an error of the Prisma client (by its error code), or a
    rejection of the mailer. *)
Inductive Exn :=
| CustomError (message : string) (statusCode : nat)
| PrismaError (code : string)
| MailerError (reason : string).

Inductive Result (A : Type) :=
| Ok (a : A)
| Throw (e : Exn).
Arguments Ok {A} a.
Arguments Throw {A} e.

(** ** The world: the table and the log of external effects *)

Inductive MailOutcome := MailResolved | MailRejected (reason : string).

Inductive Effect :=
| DbCreate (rowId : string)
| DbUpdate (rowId : string)
| DbDelete (rowId : string)
| MailerCall (to token : string) (outcome : MailOutcome).

Record World := mkWorld {
  table : list TeamMember;
  effects : list Effect
}.

(** What the environment decides during one request: the identifier the
    store gives to a new row, the token drawn by [crypto.createToken()] and
    whether the promise of the mailer resolves or rejects. *)
Record Oracle := mkOracle {
  fresh_id : string;
  fresh_token : string;
  mail_outcome : MailOutcome
}.

(** ** The monad of service methods *)

Definition M (A : Type) : Type := World → Result A * World.

Definition ret {A} (a : A) : M A := λ w, (Ok a, w).
Definition throw {A} (e : Exn) : M A := λ w, (Throw e, w).
Definition bind {A B} (m : M A) (k : A → M B) : M B :=
  λ w, match m w with
       | (Ok a, w') => k a w'
       | (Throw e, w') => (Throw e, w')
       end.

(** [x ← m; k] awaits [m] and continues with [k]; [m;; k] drops the value. *)
Global Instance M_ret : MRet M := @ret.
Global Instance M_bind : MBind M := λ A B k m, bind m k.

(** ** The Prisma client on the [teamMember] table *)

(** The [where] objects the service builds. *)
Inductive Where :=
| ById (i : string)
| ByEmail (e : string)
| ByIdAndAdmin (i a : string)
| ByInviteToken (h : string)
| ByAdmin (a : string).

Definition matches (wh : Where) (tm : TeamMember) : bool :=
  match wh with
  | ById i => String.eqb (TeamMember.id tm) i
  | ByEmail e => String.eqb (TeamMember.email tm) e
  | ByIdAndAdmin i a =>
      String.eqb (TeamMember.id tm) i && String.eqb (TeamMember.adminId tm) a
  | ByInviteToken h =>
      match TeamMember.inviteToken tm with
      | Some h' => String.eqb h' h
      | None => false
      end
  | ByAdmin a => String.eqb (TeamMember.adminId tm) a
  end.

(** The [data] object of an update is a list of assignments [column: value],
    in the order of the object literal. *)
Inductive Assign :=
| SetAdminId (v : string)
| SetFirstName (v : string)
| SetLastName (v : string)
| SetPosition (v : string)
| SetJoinDate (v : string)
| SetEmail (v : string)
| SetPassword (v : option string)
| SetInviteToken (v : option string)
| SetStatus (v : Status).

Definition assign (tm : TeamMember) (a : Assign) : TeamMember :=
  {| TeamMember.id := TeamMember.id tm;
     TeamMember.adminId :=
       match a with SetAdminId v => v | _ => TeamMember.adminId tm end;
     TeamMember.firstName :=
       match a with SetFirstName v => v | _ => TeamMember.firstName tm end;
     TeamMember.lastName :=
       match a with SetLastName v => v | _ => TeamMember.lastName tm end;
     TeamMember.position :=
       match a with SetPosition v => v | _ => TeamMember.position tm end;
     TeamMember.joinDate :=
       match a with SetJoinDate v => v | _ => TeamMember.joinDate tm end;
     TeamMember.email :=
       match a with SetEmail v => v | _ => TeamMember.email tm end;
     TeamMember.password :=
       match a with SetPassword v => v | _ => TeamMember.password tm end;
     TeamMember.inviteToken :=
       match a with SetInviteToken v => v | _ => TeamMember.inviteToken tm end;
     TeamMember.status :=
       match a with SetStatus v => v | _ => TeamMember.status tm end |}.

Definition applyPatch (data : list Assign) (tm : TeamMember) : TeamMember :=
  fold_left assign data tm.

(** The [input] object of [create]: the five profile fields. *)
Record Input := mkInput {
  in_firstName : string;
  in_lastName : string;
  in_email : string;
  in_position : string;
  in_joinDate : string
}.

(** Modelled from the spec: the Prisma schema is not part of the sources; a
    created row has status [INACTIVE] and no password (section 3: "created
    by an admin invite (status INACTIVE ...)", "passwordHash: null until
    password is set"), and [id] and [email] are unique columns. *)
Definition newRow (newId a : string) (input : Input) (tokenHash : string)
  : TeamMember :=
  {| TeamMember.id := newId;
     TeamMember.adminId := a;
     TeamMember.firstName := in_firstName input;
     TeamMember.lastName := in_lastName input;
     TeamMember.position := in_position input;
     TeamMember.joinDate := in_joinDate input;
     TeamMember.email := in_email input;
     TeamMember.password := None;
     TeamMember.inviteToken := Some tokenHash;
     TeamMember.status := INACTIVE |}.

Definition taken (newId e : string) (rows : list TeamMember) : bool :=
  existsb (λ tm, String.eqb (TeamMember.id tm) newId
                 || String.eqb (TeamMember.email tm) e) rows.

Definition emailUsed (e : string) (rows : list TeamMember) : bool :=
  existsb (λ tm, String.eqb (TeamMember.email tm) e) rows.

(** The first row that matches a [where], with its position. *)
Definition find (wh : Where) (rows : list TeamMember)
  : option (nat * TeamMember) :=
  list_find (λ tm, matches wh tm = true) rows.
Arguments find : simpl never.

Module prisma.

(** [prisma.teamMember.create({data, select})]: a unique-constraint violation
    is error P2002; the created row is returned through [select]. *)
Definition create (newId a : string) (input : Input) (tokenHash : string)
  (fields : list string) : M JsObject :=
  λ w, let row := newRow newId a input tokenHash in
       if taken newId (TeamMember.email row) (table w)
       then (Throw (PrismaError "P2002"), w)
       else (Ok (select fields row),
             {| table := table w ++ [row];
                effects := effects w ++ [DbCreate newId] |}).

(** [findUnique] and [findFirst]: the first row that matches, or null. *)
Definition findFirst (wh : Where) : M (option TeamMember) :=
  λ w, (Ok (snd <$> find wh (table w)), w).

Definition findUnique (wh : Where) : M (option TeamMember) := findFirst wh.

Definition findUniqueSelect (wh : Where) (fields : list string)
  : M (option JsObject) :=
  λ w, (Ok (select fields ∘ snd
              <$> find wh (table w)), w).

Definition findMany (wh : Where) (fields : list string) : M (list JsObject) :=
  λ w, (Ok (select fields <$> List.filter (matches wh) (table w)), w).

(** [update({where, data})]: error P2025 when no row matches, P2002 when the
    e-mail address changes to one that belongs to another row. *)
Definition update (wh : Where) (data : list Assign) : M TeamMember :=
  λ w, match find wh (table w) with
       | None => (Throw (PrismaError "P2025"), w)
       | Some (i, tm) =>
           let tm' := applyPatch data tm in
           if negb (String.eqb (TeamMember.email tm') (TeamMember.email tm))
              && emailUsed (TeamMember.email tm') (base.delete i (table w))
           then (Throw (PrismaError "P2002"), w)
           else (Ok tm',
                 {| table := <[i := tm']> (table w);
                    effects := effects w ++ [DbUpdate (TeamMember.id tm)] |})
       end.

(** [delete({where})]: error P2025 when no row matches. *)
Definition delete (wh : Where) : M TeamMember :=
  λ w, match find wh (table w) with
       | None => (Throw (PrismaError "P2025"), w)
       | Some (i, tm) =>
           (Ok tm, {| table := base.delete i (table w);
                      effects := effects w ++ [DbDelete (TeamMember.id tm)] |})
       end.

End prisma.

(** ** The utilities the service imports *)

(** The claims of a session credential, [{teamMember: {id, adminId}}]. *)
Record JwtPayload := mkJwtPayload {
  jwt_teamMember_id : string;
  jwt_teamMember_adminId : string
}.

(** [crypto.hash], [bcrypt.hash], [bcrypt.compare], [jwt.sign] and
    [process.env.JWT_SECRET] are outside the sources; the service is
    parametrised by them. *)
Class Utils := {
  crypto_hash : string → string;
  bcrypt_hash : string → string;
  bcrypt_compare : string → option string → bool;
  jwt_sign : JwtPayload → string → string → string;
  JWT_SECRET : string
}.

Module crypto.
Definition createToken (o : Oracle) : string := fresh_token o.
End crypto.

Module mailer.
(** The call is logged with its outcome; a rejected promise throws. *)
Definition sendCreatePasswordInviteToTeamMember (o : Oracle)
  (emailAddress token : string) : M unit :=
  λ w, (match mail_outcome o with
        | MailResolved => Ok ()
        | MailRejected r => Throw (MailerError r)
        end,
        {| table := table w;
           effects := effects w
                      ++ [MailerCall emailAddress token (mail_outcome o)] |}).
End mailer.

(** ** [TeamMemberService] (src/services/team-member.service.js) *)

Module TeamMemberService.
Section Methods.
Context `{Utils}.

Definition create (o : Oracle) (adminId : string) (input : Input)
  : M JsObject :=
  let inviteToken := crypto.createToken o in
  let hashedInviteToken := crypto_hash inviteToken in
  teamMember ← prisma.create (fresh_id o) adminId input hashedInviteToken
    ["id"; "firstName"; "lastName"; "position"; "joinDate"; "email";
     "status"];
  mailer.sendCreatePasswordInviteToTeamMember o (in_email input) inviteToken;;
  mret teamMember.

Definition delete (adminId teamMemberId : string) : M unit :=
  teamMember ← prisma.findUnique (ById teamMemberId);
  match teamMember with
  | None =>
      throw (CustomError
        ("Team member does not exist with following id " +:+ teamMemberId)
        404)
  | Some teamMember =>
      if negb (String.eqb (TeamMember.adminId teamMember) adminId) then
        throw (CustomError
          "Forbidden: You are not authorized to perform this action" 403)
      else if bool_decide (TeamMember.status teamMember = ACTIVE)
              || bool_decide (TeamMember.status teamMember = DEACTIVATED) then
        throw (CustomError
          "Only users with INACTIVE status can be deleted!" 404)
      else
        prisma.delete (ById teamMemberId);;
        mret ()
  end.

Definition createPassword (inviteToken password email : string) : M unit :=
  let hashedInviteToken := crypto_hash inviteToken in
  let hashedPassword := bcrypt_hash password in
  teamMember ← prisma.findFirst (ByInviteToken hashedInviteToken);
  match teamMember with
  | None => throw (CustomError "Invalid Token" 400)
  | Some _ =>
      prisma.update (ByEmail email)
        [SetPassword (Some hashedPassword); SetStatus ACTIVE;
         SetInviteToken None];;
      mret ()
  end.

Definition getAll (adminId : string) : M (list JsObject) :=
  teamMembers ← prisma.findMany (ByAdmin adminId)
    ["id"; "firstName"; "lastName"; "email"; "position"; "status";
     "joinDate"];
  mret teamMembers.

Definition changeStatus (adminId teamMemberId : string) (status : Status)
  : M unit :=
  teamMember ← prisma.findFirst (ById teamMemberId);
  match teamMember with
  | None =>
      throw (CustomError
        ("Team member does not exist with following id " +:+ teamMemberId)
        404)
  | Some teamMember =>
      if negb (String.eqb (TeamMember.adminId teamMember) adminId) then
        throw (CustomError
          "Forbidden: You are not authorized to perform this action" 403)
      else if bool_decide (TeamMember.status teamMember = INACTIVE) then
        throw (CustomError
          "Status Change is now allowed. Users with INACTIVE status can be deleted only!"
          403)
      else
        prisma.update (ByIdAndAdmin teamMemberId adminId) [SetStatus status];;
        mret ()
  end.

Definition update (adminId teamMemberId : string) (updateData : list Assign)
  : M unit :=
  prisma.update (ByIdAndAdmin teamMemberId adminId) updateData;;
  mret ().

Definition isTeamMemberBelongsToAdmin (id adminId : string) : M unit :=
  teamMember ← prisma.findUnique (ById id);
  match teamMember with
  | None => throw (CustomError "Team member does not exist" 404)
  | Some teamMember =>
      if negb (String.eqb (TeamMember.adminId teamMember) adminId) then
        throw (CustomError
          "Forbidden: You are not authorized to perform this action" 403)
      else mret ()
  end.

(** The [select] of [login] keeps every column the method reads ([id],
    [status], [password], [adminId]); the row itself stands for it. *)
Definition login (o : Oracle) (email password : string) : M string :=
  teamMember ← prisma.findUnique (ByEmail email);
  match teamMember with
  | None => throw (CustomError "Team member does not exist" 404)
  | Some teamMember =>
      if bool_decide (TeamMember.status teamMember = INACTIVE) then
        let inviteToken := crypto.createToken o in
        let hashedInviteToken := crypto_hash inviteToken in
        prisma.update (ByEmail email) [SetInviteToken (Some hashedInviteToken)];;
        mailer.sendCreatePasswordInviteToTeamMember o email inviteToken;;
        throw (CustomError
          "You did not set up the account password yet. We just emailed an instruction."
          400)
      else if bool_decide (TeamMember.status teamMember = DEACTIVATED) then
        throw (CustomError
          "Oops. You do not have an access to the platform anymore!" 401)
      else
        let isPasswordMatches :=
          bcrypt_compare password (TeamMember.password teamMember) in
        if negb isPasswordMatches then
          throw (CustomError "Invalid Credentials" 401)
        else
          let token :=
            jwt_sign
              {| jwt_teamMember_id := TeamMember.id teamMember;
                 jwt_teamMember_adminId := TeamMember.adminId teamMember |}
              JWT_SECRET "2 days" in
          mret token
  end.

Definition getMe (id : string) : M JsObject :=
  teamMember ← prisma.findUniqueSelect (ById id)
    ["firstName"; "lastName"; "position"; "status"; "email"; "id";
     "adminId"];
  match teamMember with
  | None => throw (CustomError "Team member does not exist" 404)
  | Some teamMember => mret (<["role" := VString "teamMember"]> teamMember)
  end.

End Methods.
End TeamMemberService.

(** ** [TeamMemberController] (src/controllers/team-member.controller.js) *)

(** The request: [req.adminId] and [req.teamMember.id] (set by the
    authentication middleware), [req.params.id], the authorization header
    and the JSON body, whose fields are absent ([None]) or strings. *)
Record Body := mkBody {
  b_firstName : option string;
  b_lastName : option string;
  b_email : option string;
  b_position : option string;
  b_joinDate : option string;
  b_password : option string;
  b_passwordConfirm : option string
}.

Record Request := mkRequest {
  req_adminId : string;
  req_teamMember_id : string;
  req_params_id : string;
  req_headers_authorization : option string;
  req_body : Body
}.

Inductive Payload :=
| NoContent
| Data (o : JsObject)
| DataList (l : list JsObject)
| Message (m : string)
| Token (t : string).

Record Response := mkResponse {
  res_status : nat;
  res_payload : Payload
}.

(** JavaScript truthiness of an absent-or-string value: [undefined] and the
    empty string are falsy. *)
Definition truthy (v : option string) : bool :=
  match v with
  | Some s => negb (String.eqb s "")
  | None => false
  end.

(** [s.split(sep)] for a one-character separator. *)
Fixpoint split (sep : ascii) (s : string) : list string :=
  match s with
  | EmptyString => [EmptyString]
  | String c rest =>
      if Ascii.eqb c sep then EmptyString :: split sep rest
      else match split sep rest with
           | [] => [String c EmptyString]
           | h :: t => String c h :: t
           end
  end.

(** A required field: its value when it is truthy. *)
Definition required (v : option string) : option string :=
  if truthy v then v else None.

(** [if (v) updateData.column = v]. *)
Definition setIf (column : string → Assign) (v : option string)
  (updateData : list Assign) : list Assign :=
  match required v with
  | Some s => updateData ++ [column s]
  | None => updateData
  end.

(** Every handler is wrapped in [catchAsync], which forwards a thrown error
    to the error middleware: a handler either sends a response or throws. *)
Module TeamMemberController.
Section Handlers.
Context `{Utils}.

Definition create (o : Oracle) (req : Request) : M Response :=
  let body := req_body req in
  let adminId := req_adminId req in
  let input :=
    firstName ← required (b_firstName body);
    lastName ← required (b_lastName body);
    email ← required (b_email body);
    position ← required (b_position body);
    joinDate ← required (b_joinDate body);
    Some (mkInput firstName lastName email position joinDate) in
  match input with
  | None =>
      throw (CustomError
        "All fields are required: First name, Last Name, Email, Position" 400)
  | Some input =>
      teamMember ← TeamMemberService.create o adminId input;
      mret (mkResponse 201 (Data teamMember))
  end.

Definition createPassword (req : Request) : M Response :=
  let body := req_body req in
  match required (req_headers_authorization req) with
  | None => throw (CustomError "Invite Token is missing" 401)
  | Some authorization =>
      let parts := split " "%char authorization in
      match required (parts !! 0%nat), required (parts !! 1%nat) with
      | Some prefix, Some token =>
          match required (b_password body),
                required (b_passwordConfirm body),
                required (b_email body) with
          | Some password, Some passwordConfirm, Some email =>
              if negb (String.eqb password passwordConfirm) then
                throw (CustomError
                  "Password and Password Confirmation must match" 400)
              else
                TeamMemberService.createPassword token password email;;
                mret (mkResponse 200 (Message
                  "You successfully created a password. Now, you can log in"))
          | _, _, _ =>
              throw (CustomError
                "All fields are required: Password and Password Confirmation, Email"
                400)
          end
      | _, _ => throw (CustomError "Token was not sent in correct form" 400)
      end
  end.

Definition getAll (req : Request) : M Response :=
  teamMembers ← TeamMemberService.getAll (req_adminId req);
  mret (mkResponse 200 (DataList teamMembers)).

Definition deactivate (req : Request) : M Response :=
  TeamMemberService.changeStatus (req_adminId req) (req_params_id req)
    DEACTIVATED;;
  mret (mkResponse 204 NoContent).

Definition delete (req : Request) : M Response :=
  TeamMemberService.delete (req_adminId req) (req_params_id req);;
  mret (mkResponse 204 NoContent).

Definition reactivate (req : Request) : M Response :=
  TeamMemberService.changeStatus (req_adminId req) (req_params_id req)
    ACTIVE;;
  mret (mkResponse 204 NoContent).

Definition update (req : Request) : M Response :=
  let body := req_body req in
  let updateData := [] in
  let updateData := setIf SetFirstName (b_firstName body) updateData in
  let updateData := setIf SetLastName (b_lastName body) updateData in
  let updateData := setIf SetPosition (b_position body) updateData in
  let updateData := setIf SetJoinDate (b_joinDate body) updateData in
  TeamMemberService.update (req_adminId req) (req_params_id req) updateData;;
  mret (mkResponse 204 NoContent).

Definition login (o : Oracle) (req : Request) : M Response :=
  let body := req_body req in
  match required (b_email body), required (b_password body) with
  | Some email, Some password =>
      jwt ← TeamMemberService.login o email password;
      mret (mkResponse 200 (Token jwt))
  | _, _ =>
      throw (CustomError "All fields required: email and password" 400)
  end.

Definition getMe (req : Request) : M Response :=
  me ← TeamMemberService.getMe (req_teamMember_id req);
  mret (mkResponse 200 (Data me)).

End Handlers.
End TeamMemberController.

(** The public operations: one per handler of the controller. *)
Inductive Operation :=
| OpCreate | OpCreatePassword | OpGetAll | OpDeactivate | OpDelete
| OpReactivate | OpUpdate | OpLogin | OpGetMe.

Definition handle `{Utils} (op : Operation) (o : Oracle) (req : Request)
  : M Response :=
  match op with
  | OpCreate => TeamMemberController.create o req
  | OpCreatePassword => TeamMemberController.createPassword req
  | OpGetAll => TeamMemberController.getAll req
  | OpDeactivate => TeamMemberController.deactivate req
  | OpDelete => TeamMemberController.delete req
  | OpReactivate => TeamMemberController.reactivate req
  | OpUpdate => TeamMemberController.update req
  | OpLogin => TeamMemberController.login o req
  | OpGetMe => TeamMemberController.getMe req
  end.

(** ** Store invariant: [id] and [email] are unique columns *)

Definition wf (rows : list TeamMember) : Prop :=
  NoDup (TeamMember.id <$> rows) ∧ NoDup (TeamMember.email <$> rows).

(** ** A concrete instance, for running the methods

    Toy primitives: hashing prefixes its input, comparison re-hashes. *)
Definition sampleUtils : Utils :=
  {| crypto_hash := λ s, "h(" +:+ s +:+ ")";
     bcrypt_hash := λ s, "bcrypt(" +:+ s +:+ ")";
     bcrypt_compare := λ s h,
       match h with
       | Some h => String.eqb ("bcrypt(" +:+ s +:+ ")") h
       | None => false
       end;
     jwt_sign := λ p secret expiresIn,
       "jwt{" +:+ jwt_teamMember_id p +:+ "," +:+ jwt_teamMember_adminId p
       +:+ "}" +:+ secret +:+ "/" +:+ expiresIn;
     JWT_SECRET := "secret" |}.

Definition jane : TeamMember :=
  {| TeamMember.id := "tm-1";
     TeamMember.adminId := "admin-A";
     TeamMember.firstName := "Jane";
     TeamMember.lastName := "Doe";
     TeamMember.position := "Eng";
     TeamMember.joinDate := "2024-01-01";
     TeamMember.email := "jane@x.com";
     TeamMember.password := None;
     TeamMember.inviteToken := Some "h(tok-jane)";
     TeamMember.status := INACTIVE |}.

Definition bob : TeamMember :=
  {| TeamMember.id := "tm-2";
     TeamMember.adminId := "admin-B";
     TeamMember.firstName := "Bob";
     TeamMember.lastName := "Roe";
     TeamMember.position := "Ops";
     TeamMember.joinDate := "2023-05-05";
     TeamMember.email := "bob@x.com";
     TeamMember.password := Some "bcrypt(bobs-secret)";
     TeamMember.inviteToken := None;
     TeamMember.status := ACTIVE |}.

Definition carol : TeamMember :=
  {| TeamMember.id := "tm-3";
     TeamMember.adminId := "admin-A";
     TeamMember.firstName := "Carol";
     TeamMember.lastName := "Poe";
     TeamMember.position := "QA";
     TeamMember.joinDate := "2022-02-02";
     TeamMember.email := "carol@x.com";
     TeamMember.password := Some "bcrypt(carols-secret)";
     TeamMember.inviteToken := None;
     TeamMember.status := DEACTIVATED |}.

Definition sampleWorld : World :=
  {| table := [jane; bob; carol]; effects := [] |}.

(** ** Vocabulary of the statements *)

Definition notFoundWithId (teamMemberId : string) : Exn :=
  CustomError
    ("Team member does not exist with following id " +:+ teamMemberId) 404.

Definition forbidden : Exn :=
  CustomError "Forbidden: You are not authorized to perform this action" 403.

Definition statusChangeNotAllowed : Exn :=
  CustomError
    "Status Change is now allowed. Users with INACTIVE status can be deleted only!"
    403.

Definition onlyInactiveDeletable : Exn :=
  CustomError "Only users with INACTIVE status can be deleted!" 404.

(** The row [tm] with its status replaced and every other column kept. *)
Definition withStatus (s : Status) (tm : TeamMember) : TeamMember :=
  {| TeamMember.id := TeamMember.id tm;
     TeamMember.adminId := TeamMember.adminId tm;
     TeamMember.firstName := TeamMember.firstName tm;
     TeamMember.lastName := TeamMember.lastName tm;
     TeamMember.position := TeamMember.position tm;
     TeamMember.joinDate := TeamMember.joinDate tm;
     TeamMember.email := TeamMember.email tm;
     TeamMember.password := TeamMember.password tm;
     TeamMember.inviteToken := TeamMember.inviteToken tm;
     TeamMember.status := s |}.

(** The row [tm] after a password set-up: active, with the password hash and
    without invite token. *)
Definition activated (hashedPassword : string) (tm : TeamMember)
  : TeamMember :=
  {| TeamMember.id := TeamMember.id tm;
     TeamMember.adminId := TeamMember.adminId tm;
     TeamMember.firstName := TeamMember.firstName tm;
     TeamMember.lastName := TeamMember.lastName tm;
     TeamMember.position := TeamMember.position tm;
     TeamMember.joinDate := TeamMember.joinDate tm;
     TeamMember.email := TeamMember.email tm;
     TeamMember.password := Some hashedPassword;
     TeamMember.inviteToken := None;
     TeamMember.status := ACTIVE |}.

Definition createSelect : list string :=
  ["id"; "firstName"; "lastName"; "position"; "joinDate"; "email"; "status"].

(** The row [tm] with a new invite-token hash and every other column kept. *)
Definition withInviteToken (h : option string) (tm : TeamMember)
  : TeamMember :=
  {| TeamMember.id := TeamMember.id tm;
     TeamMember.adminId := TeamMember.adminId tm;
     TeamMember.firstName := TeamMember.firstName tm;
     TeamMember.lastName := TeamMember.lastName tm;
     TeamMember.position := TeamMember.position tm;
     TeamMember.joinDate := TeamMember.joinDate tm;
     TeamMember.email := TeamMember.email tm;
     TeamMember.password := TeamMember.password tm;
     TeamMember.inviteToken := h;
     TeamMember.status := TeamMember.status tm |}.

Definition passwordNotSet : Exn :=
  CustomError
    "You did not set up the account password yet. We just emailed an instruction."
    400.

(** An assignment that neither writes INACTIVE nor changes the e-mail
    address. *)
Definition benign (a : Assign) : bool :=
  match a with
  | SetStatus INACTIVE | SetEmail _ => false
  | _ => true
  end.

(** What one request may do to the table: nothing, one update by benign
    assignments, the deletion of an INACTIVE row, or the insertion of a row
    with a new id and a new e-mail address. *)
Inductive step (rows : list TeamMember) : list TeamMember → Prop :=
| step_none : step rows rows
| step_update i tm data :
    rows !! i = Some tm → forallb benign data = true →
    step rows (<[i := applyPatch data tm]> rows)
| step_delete i tm :
    rows !! i = Some tm → TeamMember.status tm = INACTIVE →
    step rows (base.delete i rows)
| step_create row :
    taken (TeamMember.id row) (TeamMember.email row) rows = false →
    step rows (rows ++ [row]).

(** A request to a public operation, and the world after a sequence of
    requests (their responses dropped). *)
Record Call := mkCall {
  call_op : Operation;
  call_oracle : Oracle;
  call_req : Request
}.

Definition serve `{Utils} (w : World) (c : Call) : World :=
  snd (handle (call_op c) (call_oracle c) (call_req c) w).

Definition serveAll `{Utils} (calls : list Call) (w : World) : World :=
  fold_left serve calls w.

(** The columns that hold secrets, under the names of the schema and under
    the names the specification gives them. *)
Definition secretColumns : list string :=
  ["password"; "inviteToken"; "passwordHash"; "inviteTokenHash"].

(** The value of a profile column after an update request: the supplied
    value when it is truthy, the old value otherwise. *)
Definition supplied (v : option string) (old : string) : string :=
  match v with
  | Some s => if String.eqb s "" then old else s
  | None => old
  end.

(** The row [tm] after the profile update asked by [body]: only the four
    profile columns can differ. *)
Definition profileUpdated (body : Body) (tm : TeamMember) : TeamMember :=
  {| TeamMember.id := TeamMember.id tm;
     TeamMember.adminId := TeamMember.adminId tm;
     TeamMember.firstName :=
       supplied (b_firstName body) (TeamMember.firstName tm);
     TeamMember.lastName := supplied (b_lastName body) (TeamMember.lastName tm);
     TeamMember.position := supplied (b_position body) (TeamMember.position tm);
     TeamMember.joinDate := supplied (b_joinDate body) (TeamMember.joinDate tm);
     TeamMember.email := TeamMember.email tm;
     TeamMember.password := TeamMember.password tm;
     TeamMember.inviteToken := TeamMember.inviteToken tm;
     TeamMember.status := TeamMember.status tm |}.

(** ** What one request does, by operation

    [outcome op o req w (r, w')]: the handler of [op] leaves the world as it
    was, or makes exactly one of the writes below and answers as shown. *)
Inductive outcome `{Utils} (op : Operation) (o : Oracle) (req : Request)
  (w : World) : Result Response * World → Prop :=
| outcome_none r :
    outcome op o req w (r, w)
| outcome_setPassword i tm authorization token password found :
    op = OpCreatePassword →
    req_headers_authorization req = Some authorization →
    split " " authorization !! 1%nat = Some token →
    b_passwordConfirm (req_body req) = Some password →
    table w !! i = Some tm →
    b_email (req_body req) = Some (TeamMember.email tm) →
    b_password (req_body req) = Some password →
    found ∈ table w →
    TeamMember.inviteToken found = Some (crypto_hash token) →
    outcome op o req w
      (Ok (mkResponse 200 (Message
         "You successfully created a password. Now, you can log in")),
       {| table := <[i := activated (bcrypt_hash password) tm]> (table w);
          effects := effects w ++ [DbUpdate (TeamMember.id tm)] |})
| outcome_deactivate i tm :
    op = OpDeactivate →
    table w !! i = Some tm →
    TeamMember.id tm = req_params_id req →
    TeamMember.adminId tm = req_adminId req →
    TeamMember.status tm ≠ INACTIVE →
    outcome op o req w
      (Ok (mkResponse 204 NoContent),
       {| table := <[i := withStatus DEACTIVATED tm]> (table w);
          effects := effects w ++ [DbUpdate (TeamMember.id tm)] |})
| outcome_reactivate i tm :
    op = OpReactivate →
    table w !! i = Some tm →
    TeamMember.id tm = req_params_id req →
    TeamMember.adminId tm = req_adminId req →
    TeamMember.status tm ≠ INACTIVE →
    outcome op o req w
      (Ok (mkResponse 204 NoContent),
       {| table := <[i := withStatus ACTIVE tm]> (table w);
          effects := effects w ++ [DbUpdate (TeamMember.id tm)] |})
| outcome_profile i tm :
    op = OpUpdate →
    table w !! i = Some tm →
    TeamMember.id tm = req_params_id req →
    TeamMember.adminId tm = req_adminId req →
    outcome op o req w
      (Ok (mkResponse 204 NoContent),
       {| table := <[i := profileUpdated (req_body req) tm]> (table w);
          effects := effects w ++ [DbUpdate (TeamMember.id tm)] |})
| outcome_delete i tm :
    op = OpDelete →
    table w !! i = Some tm →
    TeamMember.id tm = req_params_id req →
    TeamMember.adminId tm = req_adminId req →
    TeamMember.status tm = INACTIVE →
    outcome op o req w
      (Ok (mkResponse 204 NoContent),
       {| table := base.delete i (table w);
          effects := effects w ++ [DbDelete (TeamMember.id tm)] |})
| outcome_reissue i tm :
    op = OpLogin →
    table w !! i = Some tm →
    b_email (req_body req) = Some (TeamMember.email tm) →
    TeamMember.status tm = INACTIVE →
    outcome op o req w
      (match mail_outcome o with
       | MailResolved => Throw passwordNotSet
       | MailRejected reason => Throw (MailerError reason)
       end,
       {| table := <[i := withInviteToken
                             (Some (crypto_hash (fresh_token o))) tm]>
                     (table w);
          effects := effects w
                     ++ [DbUpdate (TeamMember.id tm);
                         MailerCall (TeamMember.email tm) (fresh_token o)
                                    (mail_outcome o)] |})
| outcome_create input :
    op = OpCreate →
    b_firstName (req_body req) = Some (in_firstName input) →
    b_lastName (req_body req) = Some (in_lastName input) →
    b_email (req_body req) = Some (in_email input) →
    b_position (req_body req) = Some (in_position input) →
    b_joinDate (req_body req) = Some (in_joinDate input) →
    taken (fresh_id o) (in_email input) (table w) = false →
    outcome op o req w
      (match mail_outcome o with
       | MailResolved =>
           Ok (mkResponse 201 (Data (select createSelect
                 (newRow (fresh_id o) (req_adminId req) input
                         (crypto_hash (fresh_token o))))))
       | MailRejected reason => Throw (MailerError reason)
       end,
       {| table := table w
                   ++ [newRow (fresh_id o) (req_adminId req) input
                              (crypto_hash (fresh_token o))];
          effects := effects w
                     ++ [DbCreate (fresh_id o);
                         MailerCall (in_email input) (fresh_token o)
                                    (mail_outcome o)] |}).

(** The mailer calls of a log: address and plain token, in order. *)
Definition mailerCalls (log : list Effect) : list (string * string) :=
  omap (λ e, match e with
             | MailerCall to token _ => Some (to, token)
             | _ => None
             end) log.

(** [contains c s]: the character [c] occurs in [s]. *)
Fixpoint contains (c : ascii) (s : string) : bool :=
  match s with
  | EmptyString => false
  | String c' rest => Ascii.eqb c' c || contains c rest
  end.

Definition getAllSelect : list string :=
  ["id"; "firstName"; "lastName"; "email"; "position"; "status"; "joinDate"].

Definition getMeSelect : list string :=
  ["firstName"; "lastName"; "position"; "status"; "email"; "id"; "adminId"].

Definition missingFields : Exn :=
  CustomError
    "All fields are required: First name, Last Name, Email, Position" 400.

(** ** Sample requests *)

Definition sampleOracle : Oracle :=
  {| fresh_id := "tm-4"; fresh_token := "tok-new";
     mail_outcome := MailResolved |}.

Definition failingMailOracle : Oracle :=
  {| fresh_id := "tm-4"; fresh_token := "tok-new";
     mail_outcome := MailRejected "smtp unreachable" |}.

Definition dave : Input :=
  {| in_firstName := "Dave"; in_lastName := "Low"; in_email := "dave@x.com";
     in_position := "PM"; in_joinDate := "2024-03-03" |}.

Definition emptyBody : Body :=
  mkBody None None None None None None None.

(** A request of admin [a] about the team member [i]. *)
Definition adminRequest (a i : string) (body : Body) : Request :=
  {| req_adminId := a; req_teamMember_id := ""; req_params_id := i;
     req_headers_authorization := None; req_body := body |}.

Definition loginBody (e p : string) : Body :=
  mkBody None None (Some e) None None (Some p) None.

(** Admin B deactivates Bob, Bob tries to log in, admin B tries to delete
    him, then reactivates him and renames him. *)
Definition sampleCalls : list Call :=
  [ mkCall OpDeactivate sampleOracle (adminRequest "admin-B" "tm-2" emptyBody);
    mkCall OpLogin sampleOracle
      (adminRequest "" "" (loginBody "bob@x.com" "bobs-secret"));
    mkCall OpDelete sampleOracle (adminRequest "admin-B" "tm-2" emptyBody);
    mkCall OpReactivate sampleOracle (adminRequest "admin-B" "tm-2" emptyBody);
    mkCall OpUpdate sampleOracle
      (adminRequest "admin-B" "tm-2"
         (mkBody (Some "Robert") (Some "") None None None None None)) ].

(** Bob after the renaming request of [sampleCalls]. *)
Definition robert : TeamMember :=
  {| TeamMember.id := "tm-2";
     TeamMember.adminId := "admin-B";
     TeamMember.firstName := "Robert";
     TeamMember.lastName := "Roe";
     TeamMember.position := "Ops";
     TeamMember.joinDate := "2023-05-05";
     TeamMember.email := "bob@x.com";
     TeamMember.password := Some "bcrypt(bobs-secret)";
     TeamMember.inviteToken := None;
     TeamMember.status := ACTIVE |}.

Definition renameRequest : Request :=
  adminRequest "admin-B" "tm-2"
    (mkBody (Some "Robert") (Some "") None None None None None).

(** A password set-up request with the header [Bearer <token>]. *)
Definition setupRequest (token password passwordConfirm e : string)
  : Request :=
  {| req_adminId := ""; req_teamMember_id := ""; req_params_id := "";
     req_headers_authorization := Some ("Bearer " +:+ token);
     req_body := mkBody None None (Some e) None None (Some password)
                   (Some passwordConfirm) |}.

Definition loginRequest (e p : string) : Request :=
  adminRequest "" "" (loginBody e p).

(** * Properties *)

(** ** Lookups in the table *)

Lemma eqb_neq_false (a b : string) : a ≠ b → String.eqb a b = false.
Proof. intros Hne. by apply String.eqb_neq. Qed.

Lemma find_none (wh : Where) (rows : list TeamMember) :
  (∀ tm, tm ∈ rows → matches wh tm = false) →
  find wh rows = None.
Proof.
  intros Hno. apply list_find_None, Forall_forall.
  intros tm Hin Hm. rewrite (Hno tm Hin) in Hm. discriminate.
Qed.

(** A [where] that fixes the value of a unique column selects the row that
    has it. *)
Lemma find_unique_key {K} (key : TeamMember → K) (k : K) (wh : Where)
  (rows : list TeamMember) (i : nat) (tm : TeamMember) :
  NoDup (key <$> rows) →
  (∀ y, matches wh y = true → key y = k) →
  rows !! i = Some tm → key tm = k → matches wh tm = true →
  find wh rows = Some (i, tm).
Proof.
  intros Hnd Hkey Hi Hk Hm. apply list_find_Some. split_and!; [done..|].
  intros j y Hj Hlt Hy. apply Hkey in Hy.
  assert (i = j) as ->; [|lia].
  apply (NoDup_lookup (key <$> rows) i j k Hnd);
    rewrite list_lookup_fmap; [rewrite Hi|rewrite Hj]; simpl; congruence.
Qed.

Lemma find_by_id (rows : list TeamMember) i tm :
  wf rows → rows !! i = Some tm →
  find (ById (TeamMember.id tm)) rows = Some (i, tm).
Proof.
  intros [Hid _] Hi.
  apply (find_unique_key TeamMember.id (TeamMember.id tm)); auto; simpl.
  - intros y Hy. by apply String.eqb_eq.
  - apply String.eqb_refl.
Qed.

Lemma find_by_email (rows : list TeamMember) i tm :
  wf rows → rows !! i = Some tm →
  find (ByEmail (TeamMember.email tm)) rows = Some (i, tm).
Proof.
  intros [_ Hem] Hi.
  apply (find_unique_key TeamMember.email (TeamMember.email tm)); auto; simpl.
  - intros y Hy. by apply String.eqb_eq.
  - apply String.eqb_refl.
Qed.

Lemma find_by_id_and_admin (rows : list TeamMember) i tm :
  wf rows → rows !! i = Some tm →
  find (ByIdAndAdmin (TeamMember.id tm) (TeamMember.adminId tm)) rows
  = Some (i, tm).
Proof.
  intros [Hid _] Hi.
  apply (find_unique_key TeamMember.id (TeamMember.id tm)); auto; simpl.
  - intros y [Hy _]%andb_prop. by apply String.eqb_eq.
  - by rewrite !String.eqb_refl.
Qed.

Lemma find_lookup (wh : Where) (rows : list TeamMember) i tm :
  find wh rows = Some (i, tm) →
  rows !! i = Some tm ∧ matches wh tm = true.
Proof. intros (? & ? & _)%list_find_Some. done. Qed.

(** Unfolding of the monad. *)
Ltac run :=
  unfold mbind, M_bind, bind, mret, M_ret, ret, throw,
    prisma.findUnique, prisma.findFirst, prisma.findUniqueSelect,
    prisma.findMany; simpl.

Section Service.
Context `{Utils}.

(** ** [changeStatus] and [delete]: guards *)

Lemma changeStatus_absent adminId teamMemberId s w :
  (∀ tm, tm ∈ table w → TeamMember.id tm ≠ teamMemberId) →
  TeamMemberService.changeStatus adminId teamMemberId s w
  = (Throw (notFoundWithId teamMemberId), w).
Proof.
  intros Hno. unfold TeamMemberService.changeStatus. run.
  rewrite find_none; [done|].
  intros tm Hin. simpl. apply eqb_neq_false; auto.
Qed.

Lemma changeStatus_not_owner adminId s w i tm :
  wf (table w) → table w !! i = Some tm →
  TeamMember.adminId tm ≠ adminId →
  TeamMemberService.changeStatus adminId (TeamMember.id tm) s w
  = (Throw forbidden, w).
Proof.
  intros Hwf Hi Hne. unfold TeamMemberService.changeStatus. run.
  rewrite (find_by_id _ i tm) by done. simpl.
  by rewrite eqb_neq_false.
Qed.

Lemma changeStatus_inactive s w i tm :
  wf (table w) → table w !! i = Some tm →
  TeamMember.status tm = INACTIVE →
  TeamMemberService.changeStatus (TeamMember.adminId tm) (TeamMember.id tm) s w
  = (Throw statusChangeNotAllowed, w).
Proof.
  intros Hwf Hi Hst. unfold TeamMemberService.changeStatus. run.
  rewrite (find_by_id _ i tm) by done. simpl.
  rewrite String.eqb_refl. simpl. by rewrite Hst.
Qed.

Lemma changeStatus_flips s w i tm :
  wf (table w) → table w !! i = Some tm →
  TeamMember.status tm ≠ INACTIVE →
  TeamMemberService.changeStatus (TeamMember.adminId tm) (TeamMember.id tm) s w
  = (Ok (), {| table := <[i := withStatus s tm]> (table w);
               effects := effects w ++ [DbUpdate (TeamMember.id tm)] |}).
Proof.
  intros Hwf Hi Hst. unfold TeamMemberService.changeStatus. run.
  rewrite (find_by_id _ i tm) by done. simpl.
  rewrite String.eqb_refl. simpl.
  rewrite bool_decide_eq_false_2 by done.
  unfold prisma.update. rewrite (find_by_id_and_admin _ i tm) by done.
  simpl. rewrite String.eqb_refl. simpl. by destruct tm.
Qed.

Lemma delete_absent adminId teamMemberId w :
  (∀ tm, tm ∈ table w → TeamMember.id tm ≠ teamMemberId) →
  TeamMemberService.delete adminId teamMemberId w
  = (Throw (notFoundWithId teamMemberId), w).
Proof.
  intros Hno. unfold TeamMemberService.delete. run.
  rewrite find_none; [done|].
  intros tm Hin. simpl. apply eqb_neq_false; auto.
Qed.

Lemma delete_not_owner adminId w i tm :
  wf (table w) → table w !! i = Some tm →
  TeamMember.adminId tm ≠ adminId →
  TeamMemberService.delete adminId (TeamMember.id tm) w
  = (Throw forbidden, w).
Proof.
  intros Hwf Hi Hne. unfold TeamMemberService.delete. run.
  rewrite (find_by_id _ i tm) by done. simpl.
  by rewrite eqb_neq_false.
Qed.

Lemma delete_not_inactive w i tm :
  wf (table w) → table w !! i = Some tm →
  TeamMember.status tm ≠ INACTIVE →
  TeamMemberService.delete (TeamMember.adminId tm) (TeamMember.id tm) w
  = (Throw onlyInactiveDeletable, w).
Proof.
  intros Hwf Hi Hst. unfold TeamMemberService.delete. run.
  rewrite (find_by_id _ i tm) by done. simpl.
  rewrite String.eqb_refl. simpl.
  by destruct (TeamMember.status tm).
Qed.

Lemma delete_inactive w i tm :
  wf (table w) → table w !! i = Some tm →
  TeamMember.status tm = INACTIVE →
  TeamMemberService.delete (TeamMember.adminId tm) (TeamMember.id tm) w
  = (Ok (), {| table := base.delete i (table w);
               effects := effects w ++ [DbDelete (TeamMember.id tm)] |}).
Proof.
  intros Hwf Hi Hst. unfold TeamMemberService.delete. run.
  rewrite (find_by_id _ i tm) by done. simpl.
  rewrite String.eqb_refl, Hst. simpl.
  unfold prisma.delete. by rewrite (find_by_id _ i tm).
Qed.

(** C4: [changeStatus] (the spec's setStatus) fails with a 404 error when no
    row has the given id; for the row with that id it fails with the 403
    "Forbidden" error when the caller is not its owner, whatever the row's
    status (and [delete] rejects the same mismatch with the same error); it
    fails with a 403 error when the owner asks for a row whose status is
    INACTIVE; otherwise it succeeds and the row's status becomes the new
    status, nothing else in the table changing. *)
Theorem changeStatus_spec (adminId teamMemberId : string) (newStatus : Status)
  (w : World) :
  wf (table w) →
  ((∀ tm, tm ∈ table w → TeamMember.id tm ≠ teamMemberId) →
   TeamMemberService.changeStatus adminId teamMemberId newStatus w
   = (Throw (CustomError
        ("Team member does not exist with following id " +:+ teamMemberId)
        404), w))
  ∧ (∀ i tm,
      table w !! i = Some tm → TeamMember.id tm = teamMemberId →
      (TeamMember.adminId tm ≠ adminId →
       TeamMemberService.changeStatus adminId teamMemberId newStatus w
       = (Throw (CustomError
            "Forbidden: You are not authorized to perform this action" 403),
          w)
       ∧ TeamMemberService.delete adminId teamMemberId w
         = (Throw (CustomError
              "Forbidden: You are not authorized to perform this action" 403),
            w))
      ∧ (TeamMember.adminId tm = adminId →
         TeamMember.status tm = INACTIVE →
         TeamMemberService.changeStatus adminId teamMemberId newStatus w
         = (Throw (CustomError
              "Status Change is now allowed. Users with INACTIVE status can be deleted only!"
              403), w))
      ∧ (TeamMember.adminId tm = adminId →
         TeamMember.status tm ≠ INACTIVE →
         TeamMemberService.changeStatus adminId teamMemberId newStatus w
         = (Ok (), {| table := <[i := withStatus newStatus tm]> (table w);
                      effects := effects w ++ [DbUpdate teamMemberId] |}))).
Proof.
  intros Hwf. split.
  - apply changeStatus_absent.
  - intros i tm Hi <-. split_and!.
    + intros Hne. split.
      * by apply (changeStatus_not_owner _ _ _ i).
      * by apply (delete_not_owner _ _ i).
    + intros <- Hst. by apply (changeStatus_inactive _ _ i).
    + intros <- Hst. by apply changeStatus_flips.
Qed.

(** ** [createPassword] *)

Lemma matches_token_false h tm :
  TeamMember.inviteToken tm ≠ Some h → matches (ByInviteToken h) tm = false.
Proof.
  intros Hne. unfold matches. destruct (TeamMember.inviteToken tm) as [h'|];
    [|done].
  apply eqb_neq_false. congruence.
Qed.

(** The update goes to the row that has the e-mail address of the request,
    whichever row the token hash selected. *)
Lemma createPassword_updates_by_email inviteToken password email w j found
  i tm :
  wf (table w) →
  find (ByInviteToken (crypto_hash inviteToken)) (table w) = Some (j, found) →
  table w !! i = Some tm → TeamMember.email tm = email →
  TeamMemberService.createPassword inviteToken password email w
  = (Ok (), {| table := <[i := activated (bcrypt_hash password) tm]> (table w);
               effects := effects w ++ [DbUpdate (TeamMember.id tm)] |}).
Proof.
  intros Hwf Hfound Hi <-. unfold TeamMemberService.createPassword. run.
  rewrite Hfound. simpl. unfold prisma.update.
  rewrite (find_by_email _ i tm) by done. simpl.
  by rewrite String.eqb_refl.
Qed.

(** C2: when no row stores the hash of the supplied invite token,
    [createPassword] fails with the error "Invalid Token" of status 400, and
    neither the table nor the effect log changes. *)
Theorem createPassword_invalid_token (inviteToken password email : string)
  (w : World) :
  (∀ tm, tm ∈ table w →
         TeamMember.inviteToken tm ≠ Some (crypto_hash inviteToken)) →
  TeamMemberService.createPassword inviteToken password email w
  = (Throw (CustomError "Invalid Token" 400), w).
Proof.
  intros Hno. unfold TeamMemberService.createPassword. run.
  rewrite find_none; [done|].
  intros tm Hin. apply matches_token_false; auto.
Qed.

(** ** [create] *)

Lemma taken_false newId e rows :
  (∀ tm, tm ∈ rows → TeamMember.id tm ≠ newId ∧ TeamMember.email tm ≠ e) →
  taken newId e rows = false.
Proof.
  intros Hfresh. unfold taken. apply not_true_is_false.
  intros (tm & Hin & Hor)%existsb_exists.
  apply list_elem_of_In, Hfresh in Hin as [Hid Hem].
  apply orb_prop in Hor as [Heq|Heq]; apply String.eqb_eq in Heq; done.
Qed.

(** C5 (as the code has it): for an input whose e-mail address is not in use
    (and a row id that is new), [create] inserts the row (status INACTIVE,
    [adminId] of the caller, hash of the invite token) and after that calls
    the mailer once with the plain token; the row stays whatever the mailer
    does; when the mailer's promise resolves the method returns the selected
    public columns of the row, and when it rejects the method throws the
    mailer's error. *)
Theorem create_persists_then_mails (o : Oracle) (adminId : string)
  (input : Input) (w : World) :
  (∀ tm, tm ∈ table w →
         TeamMember.id tm ≠ fresh_id o ∧ TeamMember.email tm ≠ in_email input) →
  let row := newRow (fresh_id o) adminId input (crypto_hash (fresh_token o)) in
  let r := TeamMemberService.create o adminId input w in
  table (snd r) = table w ++ [row]
  ∧ TeamMember.status row = INACTIVE
  ∧ TeamMember.adminId row = adminId
  ∧ TeamMember.inviteToken row = Some (crypto_hash (fresh_token o))
  ∧ effects (snd r)
    = effects w ++ [DbCreate (fresh_id o);
                    MailerCall (in_email input) (fresh_token o) (mail_outcome o)]
  ∧ fst r = match mail_outcome o with
            | MailResolved => Ok (select createSelect row)
            | MailRejected reason => Throw (MailerError reason)
            end.
Proof.
  intros Hfresh row r. subst r row.
  unfold TeamMemberService.create, prisma.create,
    mailer.sendCreatePasswordInviteToTeamMember, crypto.createToken. run.
  rewrite taken_false by done. simpl.
  rewrite <- app_assoc. simpl.
  by destruct (mail_outcome o).
Qed.

(** ** [login] *)



(** C7: [login] for the e-mail address of a row whose status is ACTIVE: when
    [bcrypt.compare] accepts the password it returns the credential signed
    over [{id, adminId}] of that row with [expiresIn: "2 days"]; when it
    rejects the password it throws "Invalid Credentials" with status 401 and
    returns no credential; the table and the effect log are unchanged in both
    cases. *)
Theorem login_active (o : Oracle) (password : string) (w : World)
  (i : nat) (tm : TeamMember) :
  wf (table w) → table w !! i = Some tm →
  TeamMember.status tm = ACTIVE →
  (bcrypt_compare password (TeamMember.password tm) = true →
   TeamMemberService.login o (TeamMember.email tm) password w
   = (Ok (jwt_sign {| jwt_teamMember_id := TeamMember.id tm;
                      jwt_teamMember_adminId := TeamMember.adminId tm |}
                   JWT_SECRET "2 days"), w))
  ∧ (bcrypt_compare password (TeamMember.password tm) = false →
     TeamMemberService.login o (TeamMember.email tm) password w
     = (Throw (CustomError "Invalid Credentials" 401), w)).
Proof.
  intros Hwf Hi Hst.
  split; intros Hcmp; unfold TeamMemberService.login; run;
    rewrite (find_by_email _ i tm) by done; simpl;
    rewrite Hst; simpl; by rewrite Hcmp.
Qed.

Lemma login_deactivated (o : Oracle) (password : string) (w : World) i tm :
  wf (table w) → table w !! i = Some tm →
  TeamMember.status tm = DEACTIVATED →
  TeamMemberService.login o (TeamMember.email tm) password w
  = (Throw (CustomError
       "Oops. You do not have an access to the platform anymore!" 401), w).
Proof.
  intros Hwf Hi Hst. unfold TeamMemberService.login. run.
  rewrite (find_by_email _ i tm) by done. simpl. by rewrite Hst.
Qed.

(** ** One request changes the table by at most one [step] *)

Lemma applyPatch_id data tm :
  TeamMember.id (applyPatch data tm) = TeamMember.id tm.
Proof.
  unfold applyPatch. revert tm.
  induction data as [|a data IH]; intros tm; simpl; [done|].
  by rewrite IH.
Qed.

Lemma applyPatch_email data tm :
  forallb benign data = true →
  TeamMember.email (applyPatch data tm) = TeamMember.email tm.
Proof.
  unfold applyPatch. revert tm.
  induction data as [|a data IH]; intros tm; simpl; [done|].
  intros [Ha Hdata]%andb_prop. rewrite IH by done.
  by destruct a.
Qed.

Lemma applyPatch_status data tm :
  forallb benign data = true →
  TeamMember.status tm ≠ INACTIVE →
  TeamMember.status (applyPatch data tm) ≠ INACTIVE.
Proof.
  unfold applyPatch. revert tm.
  induction data as [|a data IH]; intros tm; simpl; [done|].
  intros [Ha Hdata]%andb_prop Hst. apply IH; [done|].
  destruct a as [| | | | | | | |[]]; simpl; done.
Qed.

Lemma prisma_update_step wh data w :
  forallb benign data = true →
  step (table w) (table (snd (prisma.update wh data w))).
Proof.
  intros Hdata. unfold prisma.update.
  destruct (find wh (table w)) as [[i tm]|] eqn:Hfind; [|constructor].
  apply find_lookup in Hfind as [Hi _]. simpl.
  rewrite applyPatch_email, String.eqb_refl by done. simpl.
  by apply step_update.
Qed.

Lemma setIf_benign column v data :
  (∀ s, benign (column s) = true) →
  forallb benign data = true → forallb benign (setIf column v data) = true.
Proof.
  intros Hcol Hdata. unfold setIf. destruct (required v); [|done].
  rewrite forallb_app, Hdata. simpl. by rewrite Hcol.
Qed.

Lemma create_step o adminId input w :
  step (table w) (table (snd (TeamMemberService.create o adminId input w))).
Proof.
  unfold TeamMemberService.create, prisma.create,
    mailer.sendCreatePasswordInviteToTeamMember. run.
  destruct (taken _ _ (table w)) eqn:Htaken; simpl; [constructor|].
  destruct (mail_outcome o); simpl; by apply step_create.
Qed.

Lemma delete_step adminId teamMemberId w :
  step (table w) (table (snd (TeamMemberService.delete adminId teamMemberId w))).
Proof.
  unfold TeamMemberService.delete, prisma.delete. run.
  destruct (find (ById teamMemberId) (table w)) as [[i tm]|] eqn:Hfind;
    simpl; [|constructor].
  destruct (negb _); simpl; [constructor|].
  destruct (TeamMember.status tm) eqn:Hst; simpl; try constructor.
  rewrite Hfind. simpl.
  apply find_lookup in Hfind as [Hi _]. by apply (step_delete _ i tm).
Qed.

Lemma createPassword_step inviteToken password email w :
  step (table w)
       (table (snd (TeamMemberService.createPassword inviteToken password
                      email w))).
Proof.
  unfold TeamMemberService.createPassword. run.
  destruct (find (ByInviteToken _) (table w)) as [[j found]|]; simpl;
    [|constructor].
  pose proof (prisma_update_step (ByEmail email)
    [SetPassword (Some (bcrypt_hash password)); SetStatus ACTIVE;
     SetInviteToken None] w eq_refl) as Hstep.
  by destruct (prisma.update _ _ w) as [[?|?] ?].
Qed.

Lemma changeStatus_step adminId teamMemberId s w :
  s ≠ INACTIVE →
  step (table w)
       (table (snd (TeamMemberService.changeStatus adminId teamMemberId s w))).
Proof.
  intros Hs. unfold TeamMemberService.changeStatus. run.
  destruct (find (ById teamMemberId) (table w)) as [[i tm]|]; simpl;
    [|constructor].
  destruct (negb _); simpl; [constructor|].
  destruct (bool_decide _); simpl; [constructor|].
  assert (forallb benign [SetStatus s] = true) as Hdata by by destruct s.
  pose proof (prisma_update_step (ByIdAndAdmin teamMemberId adminId)
    [SetStatus s] w Hdata) as Hstep.
  by destruct (prisma.update _ _ w) as [[?|?] ?].
Qed.

Lemma update_step adminId teamMemberId updateData w :
  forallb benign updateData = true →
  step (table w)
       (table (snd (TeamMemberService.update adminId teamMemberId updateData
                      w))).
Proof.
  intros Hdata. unfold TeamMemberService.update. run.
  pose proof (prisma_update_step (ByIdAndAdmin teamMemberId adminId)
    updateData w Hdata) as Hstep.
  by destruct (prisma.update _ _ w) as [[?|?] ?].
Qed.

Lemma login_step o email password w :
  step (table w) (table (snd (TeamMemberService.login o email password w))).
Proof.
  unfold TeamMemberService.login. run.
  destruct (find (ByEmail email) (table w)) as [[i tm]|]; simpl;
    [|constructor].
  destruct (bool_decide (_ = INACTIVE)); simpl.
  - pose proof (prisma_update_step (ByEmail email)
      [SetInviteToken (Some (crypto_hash (crypto.createToken o)))] w eq_refl)
      as Hstep.
    destruct (prisma.update _ _ w) as [[?|?] ?]; simpl in *; [|done].
    unfold mailer.sendCreatePasswordInviteToTeamMember.
    by destruct (mail_outcome o).
  - destruct (bool_decide _); simpl; [constructor|].
    destruct (negb _); simpl; constructor.
Qed.

Lemma getAll_readonly adminId w :
  snd (TeamMemberService.getAll adminId w) = w.
Proof. done. Qed.

Lemma getMe_readonly id w : snd (TeamMemberService.getMe id w) = w.
Proof.
  unfold TeamMemberService.getMe. run.
  by destruct (find (ById id) (table w)) as [[i tm]|].
Qed.

(** A handler that sends a response after the service method leaves the
    world as the method left it. *)
Lemma respond_snd {A} (m : M A) (f : A → Response) w :
  snd ((a ← m; mret (f a)) w) = snd (m w).
Proof. run. by destruct (m w) as [[?|?] ?]. Qed.

Lemma handle_step op o req w :
  step (table w) (table (snd (handle op o req w))).
Proof.
  destruct op; simpl.
  - unfold TeamMemberController.create.
    destruct (_ ≫= _) as [input|]; [|constructor].
    rewrite respond_snd. apply create_step.
  - unfold TeamMemberController.createPassword.
    repeat (case_match; try constructor).
    rewrite (respond_snd _ (λ _, _)). apply createPassword_step.
  - constructor.
  - unfold TeamMemberController.deactivate.
    rewrite (respond_snd _ (λ _, _)). by apply changeStatus_step.
  - unfold TeamMemberController.delete.
    rewrite (respond_snd _ (λ _, _)). apply delete_step.
  - unfold TeamMemberController.reactivate.
    rewrite (respond_snd _ (λ _, _)). by apply changeStatus_step.
  - unfold TeamMemberController.update.
    rewrite (respond_snd _ (λ _, _)). apply update_step.
    repeat apply setIf_benign; done.
  - unfold TeamMemberController.login.
    repeat (case_match; try constructor).
    rewrite respond_snd. apply login_step.
  - unfold TeamMemberController.getMe.
    rewrite respond_snd, getMe_readonly. constructor.
Qed.

(** ** Invariants of [step] *)

Lemma wf_id_inj rows a b :
  wf rows → a ∈ rows → b ∈ rows → TeamMember.id a = TeamMember.id b → a = b.
Proof.
  intros [Hid _] [i Hi]%list_elem_of_lookup [j Hj]%list_elem_of_lookup Heq.
  assert (i = j) as ->; [|congruence].
  apply (NoDup_lookup (TeamMember.id <$> rows) i j (TeamMember.id a) Hid);
    rewrite list_lookup_fmap; [rewrite Hi|rewrite Hj]; simpl; congruence.
Qed.

Lemma taken_fresh row rows tm :
  taken (TeamMember.id row) (TeamMember.email row) rows = false →
  tm ∈ rows →
  TeamMember.id tm ≠ TeamMember.id row
  ∧ TeamMember.email tm ≠ TeamMember.email row.
Proof.
  intros Htaken Hin. unfold taken in Htaken.
  apply list_elem_of_In in Hin.
  split; intros Heq;
    (assert (existsb (λ tm, String.eqb (TeamMember.id tm) (TeamMember.id row)
                            || String.eqb (TeamMember.email tm)
                                          (TeamMember.email row)) rows = true)
       as Hex; [|congruence]);
    apply existsb_exists; exists tm; (split; [done|]);
    rewrite Heq, String.eqb_refl; by rewrite ?orb_true_r.
Qed.

Lemma step_wf rows rows' : wf rows → step rows rows' → wf rows'.
Proof.
  intros [Hid Hem] Hstep.
  destruct Hstep as [|i tm data Hi Hdata|i tm Hi Hst|row Hfresh].
  - done.
  - split; rewrite list_fmap_insert.
    + rewrite applyPatch_id, list_insert_id; [done|].
      by rewrite list_lookup_fmap, Hi.
    + rewrite applyPatch_email by done.
      rewrite list_insert_id; [done|].
      by rewrite list_lookup_fmap, Hi.
  - split; rewrite list_fmap_delete.
    + eapply sublist_NoDup; [exact Hid|apply sublist_delete].
    + eapply sublist_NoDup; [exact Hem|apply sublist_delete].
  - split; rewrite fmap_app; apply NoDup_app; (split_and!; [done| |]);
      simpl; try apply NoDup_singleton.
    + intros x (tm & -> & Hin)%list_elem_of_fmap Heq%list_elem_of_singleton.
      by destruct (taken_fresh row rows tm Hfresh Hin).
    + intros x (tm & -> & Hin)%list_elem_of_fmap Heq%list_elem_of_singleton.
      by destruct (taken_fresh row rows tm Hfresh Hin).
Qed.

(** A row that is not INACTIVE is still in the table after a step, under the
    same id, and is still not INACTIVE. *)
Lemma step_activated rows rows' tm :
  step rows rows' → tm ∈ rows → TeamMember.status tm ≠ INACTIVE →
  ∃ tm', tm' ∈ rows' ∧ TeamMember.id tm' = TeamMember.id tm
         ∧ TeamMember.status tm' ≠ INACTIVE.
Proof.
  intros Hstep Hin Hact.
  destruct Hstep as [|i tm0 data Hi Hdata|i tm0 Hi Hst|row Hfresh].
  - by exists tm.
  - apply list_elem_of_lookup in Hin as [j Hj].
    destruct (decide (i = j)) as [->|Hne].
    + assert (tm0 = tm) as -> by congruence.
      exists (applyPatch data tm). split_and!.
      * apply list_elem_of_lookup. exists j.
        apply list_lookup_insert_eq. by eapply lookup_lt_Some.
      * apply applyPatch_id.
      * by apply applyPatch_status.
    + exists tm. split_and!; [|done..].
      apply list_elem_of_lookup. exists j. by rewrite list_lookup_insert_ne.
  - exists tm. split_and!; [|done..].
    rewrite delete_take_drop.
    rewrite <- (take_drop_middle rows i tm0 Hi) in Hin.
    apply elem_of_app in Hin as [Hin|Hin]; [apply elem_of_app; by left|].
    apply elem_of_cons in Hin as [->|Hin]; [congruence|].
    apply elem_of_app; by right.
  - exists tm. split_and!; [|done..]. apply elem_of_app; by left.
Qed.

Lemma serveAll_wf calls w : wf (table w) → wf (table (serveAll calls w)).
Proof.
  unfold serveAll. revert w.
  induction calls as [|c calls IH]; intros w Hwf; simpl; [done|].
  apply IH. unfold serve. eapply step_wf; [done|apply handle_step].
Qed.

Lemma serveAll_activated calls w tm :
  tm ∈ table w → TeamMember.status tm ≠ INACTIVE →
  ∃ tm', tm' ∈ table (serveAll calls w)
         ∧ TeamMember.id tm' = TeamMember.id tm
         ∧ TeamMember.status tm' ≠ INACTIVE.
Proof.
  unfold serveAll. revert w tm.
  induction calls as [|c calls IH]; intros w tm Hin Hact; simpl.
  - by exists tm.
  - destruct (step_activated _ _ tm
      (handle_step (call_op c) (call_oracle c) (call_req c) w) Hin Hact)
      as (tm1 & Hin1 & Hid1 & Hact1).
    destruct (IH (serve w c) tm1 Hin1 Hact1) as (tm' & Hin' & Hid' & Hact').
    exists tm'. split_and!; [done|congruence|done].
Qed.

(** What the two status-change handlers write. *)
Lemma changeStatus_writes adminId teamMemberId s w :
  table (snd (TeamMemberService.changeStatus adminId teamMemberId s w))
  = table w
  ∨ ∃ i tm, table w !! i = Some tm
            ∧ table (snd (TeamMemberService.changeStatus adminId teamMemberId
                            s w))
              = <[i := withStatus s tm]> (table w).
Proof.
  unfold TeamMemberService.changeStatus. run.
  destruct (find (ById teamMemberId) (table w)) as [[i tm]|]; simpl;
    [|by left].
  destruct (negb _); simpl; [by left|].
  destruct (bool_decide _); simpl; [by left|].
  unfold prisma.update.
  destruct (find (ByIdAndAdmin _ _) (table w)) as [[j tm']|] eqn:Hfind;
    simpl; [|by left].
  rewrite String.eqb_refl. simpl.
  apply find_lookup in Hfind as [Hj _].
  right. exists j, tm'. split; [done|]. by destruct tm'.
Qed.

(** C8: along any sequence of requests to the public operations, a team
    member that is ACTIVE or DEACTIVATED keeps its row and never becomes
    INACTIVE again; the two status-change operations write DEACTIVATED
    (deactivate) and ACTIVE (reactivate), and nothing else, into the status
    of an existing row. *)
Theorem never_back_to_inactive (calls : list Call) (w : World)
  (tm : TeamMember) :
  wf (table w) → tm ∈ table w → TeamMember.status tm ≠ INACTIVE →
  (∃ tm', tm' ∈ table (serveAll calls w)
          ∧ TeamMember.id tm' = TeamMember.id tm)
  ∧ (∀ tm', tm' ∈ table (serveAll calls w) →
            TeamMember.id tm' = TeamMember.id tm →
            TeamMember.status tm' = ACTIVE
            ∨ TeamMember.status tm' = DEACTIVATED)
  ∧ (∀ req,
       table (snd (TeamMemberController.deactivate req w)) = table w
       ∨ ∃ i old, table w !! i = Some old
           ∧ table (snd (TeamMemberController.deactivate req w))
             = <[i := withStatus DEACTIVATED old]> (table w))
  ∧ (∀ req,
       table (snd (TeamMemberController.reactivate req w)) = table w
       ∨ ∃ i old, table w !! i = Some old
           ∧ table (snd (TeamMemberController.reactivate req w))
             = <[i := withStatus ACTIVE old]> (table w)).
Proof.
  intros Hwf Hin Hact.
  destruct (serveAll_activated calls w tm Hin Hact)
    as (tm1 & Hin1 & Hid1 & Hact1).
  split_and!.
  - by exists tm1.
  - intros tm' Hin' Hid'.
    assert (tm' = tm1) as ->.
    { apply (wf_id_inj (table (serveAll calls w))); auto using serveAll_wf.
      congruence. }
    destruct (TeamMember.status tm1); auto. done.
  - intros req. unfold TeamMemberController.deactivate.
    rewrite (respond_snd _ (λ _, _)). apply changeStatus_writes.
  - intros req. unfold TeamMemberController.reactivate.
    rewrite (respond_snd _ (λ _, _)). apply changeStatus_writes.
Qed.

(** ** Projections *)

Lemma select_excludes (fields : list string) tm k :
  k ∉ fields → select fields tm !! k = None.
Proof.
  intros Hk. unfold select. apply not_elem_of_list_to_map_1.
  intros (kv & -> & Hin)%list_elem_of_fmap.
  apply list_elem_of_filter in Hin as [Hsel _]. done.
Qed.

(** The secret columns are columns of a row: selecting one returns it. *)
Lemma select_password tm :
  select ["password"] tm !! "password" = Some (nullable (TeamMember.password tm))
  ∧ select ["inviteToken"] tm !! "inviteToken"
    = Some (nullable (TeamMember.inviteToken tm)).
Proof. split; by vm_compute. Qed.

Lemma secret_not_selected k (fields : list string) :
  k ∈ secretColumns →
  forallb (λ s, bool_decide (s ∉ fields)) secretColumns = true →
  k ∉ fields.
Proof.
  intros Hk Hall. rewrite forallb_forall in Hall.
  apply list_elem_of_In, Hall in Hk. by apply bool_decide_eq_true in Hk.
Qed.

(** C9: the objects returned by [create], [getAll] and [getMe] have no
    [password] and no [inviteToken] field (nor a field under the names
    passwordHash and inviteTokenHash). *)
Theorem projections_hide_secrets (k : string) :
  k ∈ secretColumns →
  (∀ o adminId input w obj,
     fst (TeamMemberService.create o adminId input w) = Ok obj →
     obj !! k = None)
  ∧ (∀ adminId w objs obj,
       fst (TeamMemberService.getAll adminId w) = Ok objs →
       obj ∈ objs → obj !! k = None)
  ∧ (∀ id w obj,
       fst (TeamMemberService.getMe id w) = Ok obj → obj !! k = None).
Proof.
  intros Hk. split_and!.
  - intros o adminId input w obj.
    unfold TeamMemberService.create, prisma.create,
      mailer.sendCreatePasswordInviteToTeamMember. run.
    destruct (taken _ _ _); simpl; [done|].
    destruct (mail_outcome o); simpl; [|done].
    intros [= <-]. apply select_excludes.
    by apply secret_not_selected.
  - intros adminId w objs obj. unfold TeamMemberService.getAll. run.
    intros [= <-] (tm & -> & _)%list_elem_of_fmap.
    apply select_excludes. by apply secret_not_selected.
  - intros id w obj. unfold TeamMemberService.getMe. run.
    destruct (find (ById id) (table w)) as [[i tm]|]; simpl; [|done].
    intros [= <-]. rewrite lookup_insert_ne.
    + apply select_excludes. by apply secret_not_selected.
    + intros <-. revert Hk. by apply (bool_decide_unpack _).
Qed.

(** ** [update] *)

Lemma applyPatch_profile body tm :
  applyPatch
    (setIf SetJoinDate (b_joinDate body)
       (setIf SetPosition (b_position body)
          (setIf SetLastName (b_lastName body)
             (setIf SetFirstName (b_firstName body) [])))) tm
  = profileUpdated body tm.
Proof.
  destruct tm, body as [fn ln em po jd pw pc].
  unfold profileUpdated, setIf, required, truthy, supplied. simpl.
  destruct fn as [[|]|], ln as [[|]|], po as [[|]|], jd as [[|]|]; done.
Qed.

(** C10: an update request for the row with the given id, owned by the
    caller, replaces that row by [profileUpdated]: [firstName], [lastName],
    [position] and [joinDate] take the supplied value when it is truthy and
    keep the old one when the field is absent or empty; [id], [adminId],
    [email], [password], [inviteToken] and [status] keep their values; the
    other rows are untouched. *)
Theorem update_applies_supplied_profile_fields (req : Request) (w : World)
  (i : nat) (tm : TeamMember) :
  wf (table w) → table w !! i = Some tm →
  req_params_id req = TeamMember.id tm →
  req_adminId req = TeamMember.adminId tm →
  TeamMemberController.update req w
  = (Ok (mkResponse 204 NoContent),
     {| table := <[i := profileUpdated (req_body req) tm]> (table w);
        effects := effects w ++ [DbUpdate (TeamMember.id tm)] |})
  ∧ (∀ v, truthy v = false → ∀ old, supplied v old = old)
  ∧ (∀ s, s ≠ "" → ∀ old, supplied (Some s) old = s).
Proof.
  intros Hwf Hi Hid Hadmin. split_and!.
  - unfold TeamMemberController.update, TeamMemberService.update,
      prisma.update. run.
    rewrite Hid, Hadmin, (find_by_id_and_admin _ i tm) by done. simpl.
    rewrite applyPatch_profile. simpl. by rewrite String.eqb_refl.
  - intros [s|] Hv old; simpl in *; [|done].
    by destruct (String.eqb s "").
  - intros s Hs old. simpl. by rewrite eqb_neq_false.
Qed.

(** Outside the scope (id, adminId) the update reaches no row: Prisma's
    "record not found" error, and nothing changes. *)
Lemma update_out_of_scope (req : Request) (w : World) :
  (∀ tm, tm ∈ table w →
         ¬ (TeamMember.id tm = req_params_id req
            ∧ TeamMember.adminId tm = req_adminId req)) →
  TeamMemberController.update req w = (Throw (PrismaError "P2025"), w).
Proof.
  intros Hno.
  unfold TeamMemberController.update, TeamMemberService.update,
    prisma.update. run.
  rewrite find_none; [done|].
  intros tm Hin. apply not_true_is_false. unfold matches.
  intros [Hid Had]%andb_prop. apply String.eqb_eq in Hid, Had.
  by apply (Hno tm Hin).
Qed.

End Service.

(** * More of the service and of the controller *)

Section Handlers.
Context `{Utils}.

(** ** Every handler, in one relation *)

Lemma required_Some v s : required v = Some s → v = Some s ∧ s ≠ "".
Proof.
  unfold required, truthy. destruct v as [s'|]; [|done].
  destruct (String.eqb s' "") eqn:Heq; simpl; [done|].
  intros [= ->]. split; [done|]. by apply String.eqb_neq.
Qed.

Lemma required_None v : required v = None → v = None ∨ v = Some "".
Proof.
  unfold required, truthy. destruct v as [s'|]; [|by left].
  destruct (String.eqb s' "") eqn:Heq; simpl; [|done].
  apply String.eqb_eq in Heq as ->. by right.
Qed.

Lemma find_email wh rows i tm e :
  wh = ByEmail e → find wh rows = Some (i, tm) →
  rows !! i = Some tm ∧ TeamMember.email tm = e.
Proof.
  intros -> [Hi Hm]%find_lookup. split; [done|]. by apply String.eqb_eq.
Qed.

Lemma find_id rows i tm x :
  find (ById x) rows = Some (i, tm) →
  rows !! i = Some tm ∧ TeamMember.id tm = x.
Proof.
  intros [Hi Hm]%find_lookup. split; [done|]. by apply String.eqb_eq.
Qed.

Lemma find_id_admin rows i tm x a :
  find (ByIdAndAdmin x a) rows = Some (i, tm) →
  rows !! i = Some tm ∧ TeamMember.id tm = x ∧ TeamMember.adminId tm = a.
Proof.
  intros [Hi Hm]%find_lookup. unfold matches in Hm.
  apply andb_prop in Hm as [Hx Ha]. apply String.eqb_eq in Hx, Ha. done.
Qed.

Lemma find_token rows i tm h :
  find (ByInviteToken h) rows = Some (i, tm) →
  tm ∈ rows ∧ TeamMember.inviteToken tm = Some h.
Proof.
  intros [Hi Hm]%find_lookup. split.
  - apply list_elem_of_lookup. by exists i.
  - unfold matches in Hm. destruct (TeamMember.inviteToken tm); [|done].
    by apply String.eqb_eq in Hm as ->.
Qed.

(** The first row with a given id, when its owner is [a], is also the first
    row with that id and that owner. *)
Lemma find_id_then_admin rows i tm x a :
  find (ById x) rows = Some (i, tm) → TeamMember.adminId tm = a →
  find (ByIdAndAdmin x a) rows = Some (i, tm).
Proof.
  unfold find. intros (Hi & Hm & Hfirst)%list_find_Some <-.
  apply list_find_Some. split_and!; [done| |].
  - unfold matches in *. by rewrite Hm, String.eqb_refl.
  - intros j y Hj Hlt [Hy _]%andb_prop. by apply (Hfirst j y).
Qed.

Lemma changeStatus_outcome op o req s w :
  (op = OpDeactivate ∧ s = DEACTIVATED) ∨ (op = OpReactivate ∧ s = ACTIVE) →
  outcome op o req w
    ((TeamMemberService.changeStatus (req_adminId req) (req_params_id req) s;;
      mret (mkResponse 204 NoContent)) w).
Proof.
  intros Hop. unfold TeamMemberService.changeStatus. run.
  destruct (find (ById _) (table w)) as [[i tm]|] eqn:Hfind; simpl;
    [|constructor].
  destruct (String.eqb (TeamMember.adminId tm) (req_adminId req)) eqn:Hadmin;
    simpl; [|constructor].
  apply String.eqb_eq in Hadmin.
  destruct (bool_decide (TeamMember.status tm = INACTIVE)) eqn:Hst; simpl;
    [constructor|].
  apply bool_decide_eq_false in Hst.
  unfold prisma.update.
  rewrite (find_id_then_admin _ i tm) by done. simpl.
  rewrite String.eqb_refl. simpl.
  apply find_id in Hfind as [Hi Hid].
  replace (applyPatch [SetStatus s] tm) with (withStatus s tm)
    by by destruct tm.
  destruct Hop as [[-> ->]|[-> ->]].
  - by apply outcome_deactivate.
  - by apply outcome_reactivate.
Qed.

Lemma handle_outcome op o req w : outcome op o req w (handle op o req w).
Proof.
  destruct op; simpl.
  - (* create *)
    unfold TeamMemberController.create.
    destruct (required (b_firstName (req_body req))) as [fn|] eqn:Hfn; simpl;
      [|constructor].
    destruct (required (b_lastName (req_body req))) as [ln|] eqn:Hln; simpl;
      [|constructor].
    destruct (required (b_email (req_body req))) as [em|] eqn:Hem; simpl;
      [|constructor].
    destruct (required (b_position (req_body req))) as [po|] eqn:Hpo; simpl;
      [|constructor].
    destruct (required (b_joinDate (req_body req))) as [jd|] eqn:Hjd; simpl;
      [|constructor].
    apply required_Some in Hfn as [Hfn _], Hln as [Hln _], Hem as [Hem _],
      Hpo as [Hpo _], Hjd as [Hjd _].
    unfold TeamMemberService.create, prisma.create,
      mailer.sendCreatePasswordInviteToTeamMember, crypto.createToken. run.
    destruct (taken _ _ (table w)) eqn:Htaken; simpl; [constructor|].
    rewrite <- app_assoc. simpl.
    pose proof (outcome_create OpCreate o req w (mkInput fn ln em po jd)
                  eq_refl Hfn Hln Hem Hpo Hjd Htaken) as Hout.
    by destruct (mail_outcome o).
  - (* createPassword *)
    unfold TeamMemberController.createPassword.
    destruct (required (req_headers_authorization req)) as [authz|] eqn:Hhd;
      [|constructor].
    destruct (required (split " " authz !! 0%nat)) as [prefix|];
      [|constructor].
    destruct (required (split " " authz !! 1%nat)) as [token|] eqn:Htk;
      [|constructor].
    destruct (required (b_password (req_body req))) as [pw|] eqn:Hpw;
      [|constructor].
    destruct (required (b_passwordConfirm (req_body req))) as [pc|] eqn:Hpc;
      [|constructor].
    destruct (required (b_email (req_body req))) as [em|] eqn:Hem;
      [|constructor].
    destruct (String.eqb pw pc) eqn:Hsame; simpl; [|constructor].
    apply String.eqb_eq in Hsame as <-.
    apply required_Some in Hpw as [Hpw _], Hem as [Hem _], Hhd as [Hhd _],
      Htk as [Htk _], Hpc as [Hpc _].
    unfold TeamMemberService.createPassword. run.
    destruct (find (ByInviteToken _) (table w)) as [[j found]|] eqn:Hfound;
      simpl; [|constructor].
    apply find_token in Hfound as [Hin Htoken].
    unfold prisma.update.
    destruct (find (ByEmail em) (table w)) as [[i tm]|] eqn:Hfind; simpl;
      [|constructor].
    apply (find_email _ _ _ _ em eq_refl) in Hfind as [Hi <-].
    rewrite String.eqb_refl. simpl.
    exact (outcome_setPassword OpCreatePassword o req w i tm authz token pw
             found eq_refl Hhd Htk Hpc Hi Hem Hpw Hin Htoken).
  - (* getAll *) constructor.
  - (* deactivate *) apply changeStatus_outcome. by left.
  - (* delete *)
    unfold TeamMemberController.delete, TeamMemberService.delete,
      prisma.delete. run.
    destruct (find (ById _) (table w)) as [[i tm]|] eqn:Hfind; simpl;
      [|constructor].
    destruct (String.eqb (TeamMember.adminId tm) (req_adminId req))
      eqn:Hadmin; simpl; [|constructor].
    apply String.eqb_eq in Hadmin.
    destruct (TeamMember.status tm) eqn:Hst; simpl; try constructor.
    rewrite Hfind. simpl. apply find_id in Hfind as [Hi Hid].
    by apply outcome_delete.
  - (* reactivate *) apply changeStatus_outcome. by right.
  - (* update *)
    unfold TeamMemberController.update, TeamMemberService.update,
      prisma.update. run.
    destruct (find (ByIdAndAdmin _ _) (table w)) as [[i tm]|] eqn:Hfind;
      simpl; [|constructor].
    apply find_id_admin in Hfind as (Hi & Hid & Hadmin).
    rewrite applyPatch_profile. simpl. rewrite String.eqb_refl. simpl.
    by apply outcome_profile.
  - (* login *)
    unfold TeamMemberController.login.
    destruct (required (b_email (req_body req))) as [em|] eqn:Hem;
      [|constructor].
    destruct (required (b_password (req_body req))) as [pw|];
      [|constructor].
    apply required_Some in Hem as [Hem _].
    unfold TeamMemberService.login. run.
    destruct (find (ByEmail em) (table w)) as [[i tm]|] eqn:Hfind; simpl;
      [|constructor].
    destruct (bool_decide (TeamMember.status tm = INACTIVE)) eqn:Hst; simpl.
    + apply bool_decide_eq_true in Hst.
      unfold prisma.update, mailer.sendCreatePasswordInviteToTeamMember,
        crypto.createToken.
      rewrite Hfind. simpl.
      apply (find_email _ _ _ _ em eq_refl) in Hfind as [Hi <-].
      rewrite String.eqb_refl. simpl. rewrite <- app_assoc. simpl.
      pose proof (outcome_reissue OpLogin o req w i tm eq_refl Hi Hem Hst)
        as Hout.
      replace (applyPatch [SetInviteToken (Some (crypto_hash (fresh_token o)))]
                 tm)
        with (withInviteToken (Some (crypto_hash (fresh_token o))) tm)
        by by destruct tm.
      by destruct (mail_outcome o).
    + clear Hst.
      destruct (bool_decide (TeamMember.status tm = DEACTIVATED)); simpl;
        [constructor|].
      destruct (negb _); simpl; constructor.
  - (* getMe *)
    unfold TeamMemberController.getMe, TeamMemberService.getMe. run.
    destruct (find (ById _) (table w)) as [[i tm]|]; simpl; constructor.
Qed.

(** ** Rows before and after a request *)

Lemma elem_of_insert_other (rows : list TeamMember) i x' tm :
  tm ∈ rows → (rows !! i = Some tm → False) → tm ∈ <[i := x']> rows.
Proof.
  intros [j Hj]%list_elem_of_lookup Hne. apply list_elem_of_lookup.
  exists j. rewrite list_lookup_insert_ne; [done|]. intros ->. auto.
Qed.

Lemma elem_of_delete_index (rows : list TeamMember) i j tm :
  rows !! j = Some tm → j ≠ i → tm ∈ base.delete i rows.
Proof.
  intros Hj Hne. apply list_elem_of_lookup.
  destruct (decide (j < i)) as [Hlt|Hge].
  - exists j. by rewrite list_lookup_delete_lt.
  - exists (pred j). rewrite list_lookup_delete_ge by lia.
    by replace (S (pred j)) with j by lia.
Qed.

Lemma elem_of_delete_other (rows : list TeamMember) i tm :
  tm ∈ rows → (rows !! i = Some tm → False) → tm ∈ base.delete i rows.
Proof.
  intros [j Hj]%list_elem_of_lookup Hne.
  apply (elem_of_delete_index rows i j); [done|]. intros ->. auto.
Qed.

Lemma elem_of_delete_inv (rows : list TeamMember) i tm :
  tm ∈ base.delete i rows → tm ∈ rows.
Proof.
  intros Hin. eapply elem_of_sublist; [exact Hin|apply sublist_delete].
Qed.

(** In a table with unique ids, a row of the updated table that has the id
    of an old row is that old row, or the new value of the updated row. *)
Lemma insert_same_id rows i x x' tm tm' :
  tm' ∈ <[i := x']> rows →
  wf rows → rows !! i = Some x → TeamMember.id x' = TeamMember.id x →
  tm ∈ rows → TeamMember.id tm' = TeamMember.id tm →
  tm' = tm ∨ (tm = x ∧ tm' = x').
Proof.
  intros [j Hj]%list_elem_of_lookup Hwf Hi Hid Hin Heq.
  assert (x ∈ rows) as Hx by (apply list_elem_of_lookup; eauto).
  apply list_lookup_insert_Some in Hj as [(-> & -> & _)|[Hne Hj]].
  - right. split; [|done]. apply (wf_id_inj rows); auto. congruence.
  - left. apply (wf_id_inj rows); auto.
    apply list_elem_of_lookup. eauto.
Qed.

Lemma row_change op o req w tm tm' :
  wf (table w) → tm ∈ table w →
  tm' ∈ table (snd (handle op o req w)) →
  TeamMember.id tm' = TeamMember.id tm →
  tm' = tm
  ∨ (op = OpCreatePassword
     ∧ ∃ password, b_password (req_body req) = Some password
                   ∧ tm' = activated (bcrypt_hash password) tm)
  ∨ (op = OpDeactivate ∧ TeamMember.status tm ≠ INACTIVE
     ∧ TeamMember.adminId tm = req_adminId req
     ∧ tm' = withStatus DEACTIVATED tm)
  ∨ (op = OpReactivate ∧ TeamMember.status tm ≠ INACTIVE
     ∧ TeamMember.adminId tm = req_adminId req
     ∧ tm' = withStatus ACTIVE tm)
  ∨ (op = OpUpdate ∧ TeamMember.adminId tm = req_adminId req
     ∧ tm' = profileUpdated (req_body req) tm)
  ∨ (op = OpLogin ∧ TeamMember.status tm = INACTIVE
     ∧ tm' = withInviteToken (Some (crypto_hash (fresh_token o))) tm).
Proof.
  intros Hwf Hin Hin' Hid. revert Hin'.
  destruct (handle_outcome op o req w)
    as [r|i x authz token pw found -> _ _ _ Hi _ Hpw _ _
        |i x -> Hi _ Hadmin Hst|i x -> Hi _ Hadmin Hst|i x -> Hi _ Hadmin
        |i x -> Hi _ _ _|i x -> Hi _ Hst|input -> _ _ _ _ _ Hfresh];
    simpl; intros Hin';
    try (apply (insert_same_id _ _ x _ tm) in Hin' as [->|[-> ->]];
         [by left| |done..]).
  - left. by apply (wf_id_inj (table w)).
  - right; left. split; [done|]. by exists pw.
  - do 2 right; left. done.
  - do 3 right; left. done.
  - do 4 right; left. done.
  - left. apply (wf_id_inj (table w)); auto.
    by apply elem_of_delete_inv in Hin'.
  - do 5 right. done.
  - left. apply elem_of_app in Hin' as [Hin'|Hnew%list_elem_of_singleton].
    + by apply (wf_id_inj (table w)).
    + subst tm'. simpl in Hid.
      destruct (taken_fresh
        (newRow (fresh_id o) (req_adminId req) input
                (crypto_hash (fresh_token o))) (table w) tm) as [Hne _];
        [done..|].
      simpl in Hne. congruence.
Qed.

(** ** What the handlers never do *)

(** X1: a request that is answered with an error writes nothing, with two
    exceptions that both come after a write: the rejection of the mailer
    (in create and login) and the "password not set" error of login. *)
Theorem rejected_request_writes_nothing (op : Operation) (o : Oracle)
  (req : Request) (w : World) (e : Exn) :
  fst (handle op o req w) = Throw e →
  (∀ reason, e ≠ MailerError reason) →
  e ≠ CustomError
        "You did not set up the account password yet. We just emailed an instruction."
        400 →
  snd (handle op o req w) = w.
Proof.
  intros He Hmail Hnotset. revert He.
  destruct (handle_outcome op o req w)
    as [r| | | | | |i x -> Hi _ Hst|input -> _ _ _ _ _ Hfresh];
    simpl; try done.
  - destruct (mail_outcome o) as [|reason]; intros [= <-];
      [done|by destruct (Hmail reason)].
  - destruct (mail_outcome o) as [|reason]; intros [= <-].
    by destruct (Hmail reason).
Qed.

(** X2: the requests an admin makes about a team member (deactivate,
    reactivate, update, delete) leave every row owned by another admin in
    the table, unchanged. *)
Theorem admin_request_spares_other_admins (op : Operation) (o : Oracle)
  (req : Request) (w : World) (tm : TeamMember) :
  op = OpDeactivate ∨ op = OpReactivate ∨ op = OpUpdate ∨ op = OpDelete →
  tm ∈ table w →
  TeamMember.adminId tm ≠ req_adminId req →
  tm ∈ table (snd (handle op o req w)).
Proof.
  intros Hop Hin Hother.
  destruct (handle_outcome op o req w)
    as [r|i x authz token pw found -> _ _ _ Hi _ Hpw _ _
        |i x -> Hi _ Hadmin Hst|i x -> Hi _ Hadmin Hst|i x -> Hi _ Hadmin
        |i x -> Hi _ Hadmin _|i x -> Hi _ Hst|input -> _ _ _ _ _ Hfresh];
    simpl; try done; try (by repeat destruct Hop as [Hop|Hop]);
    try (apply elem_of_insert_other; [done|];
         intros Hi'; rewrite Hi in Hi'; congruence).
  apply elem_of_delete_other; [done|].
  intros Hi'; rewrite Hi in Hi'; congruence.
Qed.

(** X3: no request changes the [id], the [adminId] or the [email] of a row:
    in a table with unique ids, the row that has the id of an old row after
    a request has the owner and the address of that old row. *)
Theorem request_keeps_owner_and_email (op : Operation) (o : Oracle)
  (req : Request) (w : World) (tm tm' : TeamMember) :
  wf (table w) → tm ∈ table w →
  tm' ∈ table (snd (handle op o req w)) →
  TeamMember.id tm' = TeamMember.id tm →
  TeamMember.adminId tm' = TeamMember.adminId tm
  ∧ TeamMember.email tm' = TeamMember.email tm.
Proof.
  intros Hwf Hin Hin' Hid.
  destruct (row_change op o req w tm tm' Hwf Hin Hin' Hid)
    as [->|[(_ & pw & _ & ->)|[(_ & _ & _ & ->)|[(_ & _ & _ & ->)
        |[(_ & _ & ->)|(_ & _ & ->)]]]]]; done.
Qed.

(** X4: which request writes which column of an existing row. The password
    is written by createPassword only; the invite token by createPassword
    and login only; the status by createPassword, deactivate and reactivate
    only; the four profile columns by update only. *)
Theorem columns_written_by (op : Operation) (o : Oracle) (req : Request)
  (w : World) (tm tm' : TeamMember) :
  wf (table w) → tm ∈ table w →
  tm' ∈ table (snd (handle op o req w)) →
  TeamMember.id tm' = TeamMember.id tm →
  (op ≠ OpCreatePassword →
   TeamMember.password tm' = TeamMember.password tm)
  ∧ (op ≠ OpCreatePassword → op ≠ OpLogin →
     TeamMember.inviteToken tm' = TeamMember.inviteToken tm)
  ∧ (op ≠ OpCreatePassword → op ≠ OpDeactivate → op ≠ OpReactivate →
     TeamMember.status tm' = TeamMember.status tm)
  ∧ (op ≠ OpUpdate →
     TeamMember.firstName tm' = TeamMember.firstName tm
     ∧ TeamMember.lastName tm' = TeamMember.lastName tm
     ∧ TeamMember.position tm' = TeamMember.position tm
     ∧ TeamMember.joinDate tm' = TeamMember.joinDate tm).
Proof.
  intros Hwf Hin Hin' Hid.
  destruct (row_change op o req w tm tm' Hwf Hin Hin' Hid)
    as [->|[(-> & pw & _ & ->)|[(-> & _ & _ & ->)|[(-> & _ & _ & ->)
        |[(-> & _ & ->)|(-> & _ & ->)]]]]]; done.
Qed.

(** X5: the status of a row changes in three ways only: createPassword makes
    it ACTIVE (from any status), deactivate makes a row that is not INACTIVE
    DEACTIVATED, reactivate makes a row that is not INACTIVE ACTIVE; the last
    two only for the owner of the row. *)
Theorem status_transitions (op : Operation) (o : Oracle) (req : Request)
  (w : World) (tm tm' : TeamMember) :
  wf (table w) → tm ∈ table w →
  tm' ∈ table (snd (handle op o req w)) →
  TeamMember.id tm' = TeamMember.id tm →
  TeamMember.status tm' = TeamMember.status tm
  ∨ (op = OpCreatePassword ∧ TeamMember.status tm' = ACTIVE)
  ∨ (op = OpDeactivate ∧ TeamMember.status tm ≠ INACTIVE
     ∧ TeamMember.adminId tm = req_adminId req
     ∧ TeamMember.status tm' = DEACTIVATED)
  ∨ (op = OpReactivate ∧ TeamMember.status tm ≠ INACTIVE
     ∧ TeamMember.adminId tm = req_adminId req
     ∧ TeamMember.status tm' = ACTIVE).
Proof.
  intros Hwf Hin Hin' Hid.
  destruct (row_change op o req w tm tm' Hwf Hin Hin' Hid)
    as [->|[(-> & pw & _ & ->)|[(-> & ? & ? & ->)|[(-> & ? & ? & ->)
        |[(-> & _ & ->)|(-> & _ & ->)]]]]]; simpl; auto 10.
Qed.

(** X6: a row leaves the table only through delete, asked by its owner for
    its id, while it is INACTIVE. *)
Theorem row_removed_only_by_delete (op : Operation) (o : Oracle)
  (req : Request) (w : World) (tm : TeamMember) :
  tm ∈ table w →
  (∀ tm', tm' ∈ table (snd (handle op o req w)) →
          TeamMember.id tm' ≠ TeamMember.id tm) →
  op = OpDelete
  ∧ TeamMember.status tm = INACTIVE
  ∧ TeamMember.adminId tm = req_adminId req
  ∧ TeamMember.id tm = req_params_id req.
Proof.
  intros Hin.
  destruct (handle_outcome op o req w)
    as [r|i x authz token pw found -> _ _ _ Hi _ Hpw _ _
        |i x -> Hi _ Hadmin Hst|i x -> Hi _ Hadmin Hst|i x -> Hi _ Hadmin
        |i x -> Hi Hid Hadmin Hst|i x -> Hi _ Hst|input -> _ _ _ _ _ Hfresh];
    simpl; intros Hgone;
    try (exfalso;
         apply list_elem_of_lookup in Hin as [j Hj];
         destruct (decide (j = i)) as [->|Hne];
         [ apply (Hgone _ (proj2 (list_elem_of_lookup _ _)
                     (ex_intro _ i (list_lookup_insert_eq _ _ _
                        (lookup_lt_Some _ _ _ Hi)))));
           simpl; congruence
         | apply (Hgone tm); [|done];
           apply list_elem_of_lookup; exists j;
           by rewrite list_lookup_insert_ne ]).
  - by destruct (Hgone tm).
  - apply list_elem_of_lookup in Hin as [j Hj].
    destruct (decide (j = i)) as [->|Hne].
    + assert (x = tm) as -> by congruence. done.
    + exfalso. apply (Hgone tm); [|done].
      by apply (elem_of_delete_index _ i j).
  - exfalso. apply (Hgone tm); [|done]. apply elem_of_app. by left.
Qed.

(** X7: a request appends to the effect log and calls the mailer at most
    once; only create and login call it, and when one does, the plain token
    it mails is the one whose hash is now stored in the row of the address,
    a row that is INACTIVE. *)
Theorem mailed_token_is_stored (op : Operation) (o : Oracle) (req : Request)
  (w : World) :
  ∃ new,
    effects (snd (handle op o req w)) = effects w ++ new
    ∧ (mailerCalls new = []
       ∨ ((op = OpCreate ∨ op = OpLogin)
          ∧ ∃ tm',
              mailerCalls new = [(TeamMember.email tm', fresh_token o)]
              ∧ tm' ∈ table (snd (handle op o req w))
              ∧ TeamMember.inviteToken tm'
                = Some (crypto_hash (fresh_token o))
              ∧ TeamMember.status tm' = INACTIVE)).
Proof.
  destruct (handle_outcome op o req w)
    as [r|i x authz token pw found -> _ _ _ Hi _ Hpw _ _
        |i x -> Hi _ Hadmin Hst|i x -> Hi _ Hadmin Hst|i x -> Hi _ Hadmin
        |i x -> Hi Hid Hadmin Hst|i x -> Hi _ Hst|input -> _ _ _ _ _ Hfresh];
    simpl.
  - exists []. rewrite app_nil_r. auto.
  - eexists. split; [done|]. by left.
  - eexists. split; [done|]. by left.
  - eexists. split; [done|]. by left.
  - eexists. split; [done|]. by left.
  - eexists. split; [done|]. by left.
  - eexists. split; [done|]. right. split; [by right|].
    exists (withInviteToken (Some (crypto_hash (fresh_token o))) x).
    split_and!; try done.
    apply list_elem_of_lookup. exists i.
    apply list_lookup_insert_eq. by eapply lookup_lt_Some.
  - eexists. split; [done|]. right. split; [by left|].
    exists (newRow (fresh_id o) (req_adminId req) input
                   (crypto_hash (fresh_token o))).
    split_and!; try done.
    apply elem_of_app. right. by apply list_elem_of_singleton.
Qed.

(** X8: the createPassword handler answers 200 only when the authorization
    header has a non-empty second part whose hash is the stored invite-token
    hash of some row, the password equals its confirmation, and a row has
    the e-mail address of the body. *)
Theorem password_set_only_with_stored_token (req : Request) (w : World)
  (resp : Response) :
  fst (TeamMemberController.createPassword req w) = Ok resp →
  ∃ authorization token password found tm,
    req_headers_authorization req = Some authorization
    ∧ split " " authorization !! 1%nat = Some token
    ∧ token ≠ ""
    ∧ b_password (req_body req) = Some password
    ∧ b_passwordConfirm (req_body req) = Some password
    ∧ password ≠ ""
    ∧ found ∈ table w
    ∧ TeamMember.inviteToken found = Some (crypto_hash token)
    ∧ tm ∈ table w
    ∧ b_email (req_body req) = Some (TeamMember.email tm)
    ∧ res_status resp = 200.
Proof.
  unfold TeamMemberController.createPassword.
  destruct (required (req_headers_authorization req)) as [authz|] eqn:Hhd;
    [|done].
  destruct (required (split " " authz !! 0%nat)) as [prefix|]; [|done].
  destruct (required (split " " authz !! 1%nat)) as [token|] eqn:Htk;
    [|done].
  destruct (required (b_password (req_body req))) as [pw|] eqn:Hpw; [|done].
  destruct (required (b_passwordConfirm (req_body req))) as [pc|] eqn:Hpc;
    [|done].
  destruct (required (b_email (req_body req))) as [em|] eqn:Hem; [|done].
  destruct (String.eqb pw pc) eqn:Hsame; simpl; [|done].
  apply String.eqb_eq in Hsame as <-.
  apply required_Some in Hpw as [Hpw Hpw'], Hem as [Hem _], Hhd as [Hhd _],
    Htk as [Htk Htk'], Hpc as [Hpc _].
  unfold TeamMemberService.createPassword. run.
  destruct (find (ByInviteToken _) (table w)) as [[j found]|] eqn:Hfound;
    simpl; [|done].
  apply find_token in Hfound as [Hin Htoken].
  unfold prisma.update.
  destruct (find (ByEmail em) (table w)) as [[i tm]|] eqn:Hfind; simpl;
    [|done].
  apply (find_email _ _ _ _ em eq_refl) in Hfind as [Hi <-].
  rewrite String.eqb_refl. simpl. intros [= <-].
  exists authz, token, pw, found, tm. split_and!; try done.
  apply list_elem_of_lookup. eauto.
Qed.

(** ** [login] *)

(** X9: [login] returns a credential only for a row that has the e-mail
    address, is ACTIVE and whose stored password [bcrypt.compare] accepts;
    the credential is signed over the id and the owner of that row, for
    2 days, and the call writes nothing. *)
Theorem credential_only_for_active_member (o : Oracle)
  (email password : string) (w : World) (token : string) :
  fst (TeamMemberService.login o email password w) = Ok token →
  ∃ tm,
    tm ∈ table w
    ∧ TeamMember.email tm = email
    ∧ TeamMember.status tm = ACTIVE
    ∧ bcrypt_compare password (TeamMember.password tm) = true
    ∧ token = jwt_sign {| jwt_teamMember_id := TeamMember.id tm;
                          jwt_teamMember_adminId := TeamMember.adminId tm |}
                       JWT_SECRET "2 days"
    ∧ snd (TeamMemberService.login o email password w) = w.
Proof.
  unfold TeamMemberService.login. run.
  destruct (find (ByEmail email) (table w)) as [[i tm]|] eqn:Hfind; simpl;
    [|done].
  apply (find_email _ _ _ _ email eq_refl) in Hfind as [Hi Hem].
  destruct (TeamMember.status tm) eqn:Hst; simpl.
  - unfold prisma.update. 
    destruct (find (ByEmail email) (table w)) as [[i' tm']|]; simpl; [|done].
    destruct (negb _ && _); simpl; [done|].
    unfold mailer.sendCreatePasswordInviteToTeamMember.
    by destruct (mail_outcome o).
  - destruct (bcrypt_compare password (TeamMember.password tm)) eqn:Hcmp;
      simpl; [|done].
    intros [= <-]. exists tm. split_and!; try done.
    apply list_elem_of_lookup. eauto.
  - done.
Qed.

(** X10: [login] for an address that no row has fails with status 404, and
    for a DEACTIVATED row with status 401, whatever the password; neither
    call writes to the table, draws a token or calls the mailer. *)
Theorem login_unknown_or_deactivated (o : Oracle) (email password : string)
  (w : World) :
  ((∀ tm, tm ∈ table w → TeamMember.email tm ≠ email) →
   TeamMemberService.login o email password w
   = (Throw (CustomError "Team member does not exist" 404), w))
  ∧ (∀ i tm,
       wf (table w) → table w !! i = Some tm →
       TeamMember.email tm = email →
       TeamMember.status tm = DEACTIVATED →
       TeamMemberService.login o email password w
       = (Throw (CustomError
            "Oops. You do not have an access to the platform anymore!" 401),
          w)).
Proof.
  split.
  - intros Hno. unfold TeamMemberService.login. run.
    rewrite find_none; [done|].
    intros tm Hin. apply eqb_neq_false. auto.
  - intros i tm Hwf Hi <- Hst. by apply (login_deactivated o password w i).
Qed.

(** ** [isTeamMemberBelongsToAdmin] *)

(** X11: in a table with unique ids, [isTeamMemberBelongsToAdmin] returns
    normally exactly when a row has the id and is owned by the admin; it
    fails with 404 when no row has the id and with 403 when the row with the
    id has another owner; it never writes. *)
Theorem ownership_gate (id adminId : string) (w : World) :
  wf (table w) →
  snd (TeamMemberService.isTeamMemberBelongsToAdmin id adminId w) = w
  ∧ (fst (TeamMemberService.isTeamMemberBelongsToAdmin id adminId w) = Ok ()
     ↔ ∃ tm, tm ∈ table w ∧ TeamMember.id tm = id
             ∧ TeamMember.adminId tm = adminId)
  ∧ ((∀ tm, tm ∈ table w → TeamMember.id tm ≠ id) →
     fst (TeamMemberService.isTeamMemberBelongsToAdmin id adminId w)
     = Throw (CustomError "Team member does not exist" 404))
  ∧ (∀ tm, tm ∈ table w → TeamMember.id tm = id →
           TeamMember.adminId tm ≠ adminId →
           fst (TeamMemberService.isTeamMemberBelongsToAdmin id adminId w)
           = Throw (CustomError
               "Forbidden: You are not authorized to perform this action"
               403)).
Proof.
  intros Hwf. unfold TeamMemberService.isTeamMemberBelongsToAdmin. run.
  split_and!.
  - destruct (find (ById id) (table w)) as [[i tm]|]; simpl; [|done].
    by destruct (negb _).
  - split.
    + destruct (find (ById id) (table w)) as [[i tm]|] eqn:Hfind; simpl;
        [|done].
      apply find_id in Hfind as [Hi Hid].
      destruct (String.eqb (TeamMember.adminId tm) adminId) eqn:Hadm; simpl;
        [|done].
      intros _. exists tm. apply String.eqb_eq in Hadm.
      split_and!; try done. apply list_elem_of_lookup. eauto.
    + intros (tm & [i Hi]%list_elem_of_lookup & <- & <-).
      rewrite (find_by_id _ i tm) by done. simpl.
      by rewrite String.eqb_refl.
  - intros Hno. rewrite find_none; [done|].
    intros tm Hin. apply eqb_neq_false. auto.
  - intros tm [i Hi]%list_elem_of_lookup <- Hne.
    rewrite (find_by_id _ i tm) by done. simpl.
    by rewrite eqb_neq_false.
Qed.

(** ** [getAll] and [getMe] *)

(** X12: [getAll] never fails and never writes; it returns one object for
    each row owned by the admin and none for any other row; an object shows
    the seven selected columns of its row and not its owner. *)
Theorem getAll_lists_own_rows (adminId : string) (w : World) :
  ∃ teamMembers,
    TeamMemberService.getAll adminId w = (Ok teamMembers, w)
    ∧ length teamMembers
      = length (List.filter (λ tm, String.eqb (TeamMember.adminId tm) adminId)
                            (table w))
    ∧ (∀ teamMember,
         teamMember ∈ teamMembers
         ↔ ∃ tm, tm ∈ table w ∧ TeamMember.adminId tm = adminId
                 ∧ teamMember = select getAllSelect tm)
    ∧ (∀ tm,
         select getAllSelect tm !! "id" = Some (VString (TeamMember.id tm))
         ∧ select getAllSelect tm !! "firstName"
           = Some (VString (TeamMember.firstName tm))
         ∧ select getAllSelect tm !! "lastName"
           = Some (VString (TeamMember.lastName tm))
         ∧ select getAllSelect tm !! "email"
           = Some (VString (TeamMember.email tm))
         ∧ select getAllSelect tm !! "position"
           = Some (VString (TeamMember.position tm))
         ∧ select getAllSelect tm !! "joinDate"
           = Some (VString (TeamMember.joinDate tm))
         ∧ select getAllSelect tm !! "status"
           = Some (VString (status_name (TeamMember.status tm)))
         ∧ select getAllSelect tm !! "adminId" = None).
Proof.
  eexists. split_and!.
  - reflexivity.
  - by rewrite length_fmap.
  - intros teamMember. rewrite list_elem_of_fmap. split.
    + intros (tm & -> & Hin). exists tm.
      apply list_elem_of_In, filter_In in Hin as [Hin Hm].
      apply list_elem_of_In in Hin. apply String.eqb_eq in Hm. done.
    + intros (tm & Hin & Hadmin & ->). exists tm. split; [done|].
      apply list_elem_of_In, filter_In. split; [by apply list_elem_of_In|].
      by apply String.eqb_eq.
  - intros tm. split_and!; by vm_compute.
Qed.

(** X13: [getMe] for the id of a row returns, without writing, the object
    with the columns [firstName], [lastName], [position], [status], [email],
    [id] and [adminId] of that row and the tag [role: "teamMember"], and
    nothing else; for an id that no row has it fails with status 404. *)
Theorem getMe_returns_profile (id : string) (w : World) :
  (∀ i tm,
     wf (table w) → table w !! i = Some tm → TeamMember.id tm = id →
     ∃ me,
       TeamMemberService.getMe id w = (Ok me, w)
       ∧ me !! "role" = Some (VString "teamMember")
       ∧ me !! "id" = Some (VString (TeamMember.id tm))
       ∧ me !! "adminId" = Some (VString (TeamMember.adminId tm))
       ∧ me !! "email" = Some (VString (TeamMember.email tm))
       ∧ me !! "firstName" = Some (VString (TeamMember.firstName tm))
       ∧ me !! "lastName" = Some (VString (TeamMember.lastName tm))
       ∧ me !! "position" = Some (VString (TeamMember.position tm))
       ∧ me !! "status" = Some (VString (status_name (TeamMember.status tm)))
       ∧ (∀ k, k ∉ "role" :: getMeSelect → me !! k = None))
  ∧ ((∀ tm, tm ∈ table w → TeamMember.id tm ≠ id) →
     TeamMemberService.getMe id w
     = (Throw (CustomError "Team member does not exist" 404), w)).
Proof.
  split.
  - intros i tm Hwf Hi <-. unfold TeamMemberService.getMe. run.
    rewrite (find_by_id _ i tm Hwf Hi). simpl.
    eexists. split; [reflexivity|].
    split_and!; try by vm_compute.
    intros k Hk. apply not_elem_of_cons in Hk as [Hrole Hk].
    rewrite lookup_insert_ne by done. by apply select_excludes.
  - intros Hno. unfold TeamMemberService.getMe. run.
    rewrite find_none; [done|].
    intros tm Hin. apply eqb_neq_false. auto.
Qed.

(** ** Validation in the controller *)

(** X14: the create handler answers the 400 "All fields are required" error,
    without writing, exactly when one of [firstName], [lastName], [email],
    [position], [joinDate] is absent or empty. *)
Theorem create_requires_all_fields (o : Oracle) (req : Request) (w : World) :
  truthy (b_firstName (req_body req)) && truthy (b_lastName (req_body req))
  && truthy (b_email (req_body req)) && truthy (b_position (req_body req))
  && truthy (b_joinDate (req_body req)) = false
  ↔ TeamMemberController.create o req w
    = (Throw (CustomError
         "All fields are required: First name, Last Name, Email, Position"
         400), w).
Proof.
  unfold TeamMemberController.create, required.
  destruct (b_firstName (req_body req)) as [fn|],
    (b_lastName (req_body req)) as [ln|],
    (b_email (req_body req)) as [em|],
    (b_position (req_body req)) as [po|],
    (b_joinDate (req_body req)) as [jd|]; simpl;
    rewrite ?andb_false_r; try done;
    destruct (negb (String.eqb fn "")); simpl; try done;
    destruct (negb (String.eqb ln "")); simpl; try done;
    destruct (negb (String.eqb em "")); simpl; try done;
    destruct (negb (String.eqb po "")); simpl; try done;
    destruct (negb (String.eqb jd "")); simpl; try done.
  unfold TeamMemberService.create, prisma.create,
    mailer.sendCreatePasswordInviteToTeamMember. run.
  destruct (taken _ _ _); simpl; [done|].
  by destruct (mail_outcome o).
Qed.

Lemma required_truthy s : s ≠ "" → required (Some s) = Some s.
Proof.
  intros Hs. unfold required, truthy. by rewrite eqb_neq_false.
Qed.

Lemma split_no_sep sep s : contains sep s = false → split sep s = [s].
Proof.
  induction s as [|c s IH]; simpl; [done|].
  intros [Hc Hs]%orb_false_elim. by rewrite Hc, IH.
Qed.

Lemma split_first sep p t :
  contains sep p = false →
  split sep (p +:+ String sep t) = p :: split sep t.
Proof.
  induction p as [|c p IH]; simpl.
  - intros _. by rewrite Ascii.eqb_refl.
  - intros [Hc Hp]%orb_false_elim. by rewrite Hc, IH.
Qed.

(** X15: for an authorization header made of a non-empty scheme, one space
    and a non-empty token, neither containing a space, and a body whose
    password equals its confirmation, the createPassword handler calls the
    service method with that token, that password and the e-mail address of
    the body, and answers 200 when the method returns. *)
Theorem createPassword_reads_bearer_token (prefix token password email : string)
  (req : Request) (w : World) :
  contains " " prefix = false → contains " " token = false →
  prefix ≠ "" → token ≠ "" → password ≠ "" → email ≠ "" →
  req_headers_authorization req = Some (prefix +:+ String " " token) →
  b_password (req_body req) = Some password →
  b_passwordConfirm (req_body req) = Some password →
  b_email (req_body req) = Some email →
  TeamMemberController.createPassword req w
  = (TeamMemberService.createPassword token password email;;
     mret (mkResponse 200 (Message
       "You successfully created a password. Now, you can log in"))) w.
Proof.
  intros Hp Ht Hp' Ht' Hpw Hem Hhd Hbp Hbc Hbe.
  unfold TeamMemberController.createPassword.
  rewrite Hhd, Hbp, Hbc, Hbe.
  rewrite required_truthy by by destruct prefix.
  rewrite split_first, split_no_sep by done. simpl.
  rewrite !required_truthy by done.
  by rewrite String.eqb_refl.
Qed.

(** X16: the createPassword handler rejects, without writing: a missing or
    empty authorization header with status 401; a header without a space
    with status 400; and, for a well-formed header and a complete body, a
    password that differs from its confirmation with status 400. *)
Theorem createPassword_rejections (req : Request) (w : World) :
  (truthy (req_headers_authorization req) = false →
   TeamMemberController.createPassword req w
   = (Throw (CustomError "Invite Token is missing" 401), w))
  ∧ (∀ authorization,
       req_headers_authorization req = Some authorization →
       authorization ≠ "" → contains " " authorization = false →
       TeamMemberController.createPassword req w
       = (Throw (CustomError "Token was not sent in correct form" 400), w))
  ∧ (∀ prefix token password passwordConfirm email,
       req_headers_authorization req = Some (prefix +:+ String " " token) →
       contains " " prefix = false → contains " " token = false →
       prefix ≠ "" → token ≠ "" →
       b_password (req_body req) = Some password → password ≠ "" →
       b_passwordConfirm (req_body req) = Some passwordConfirm →
       passwordConfirm ≠ "" →
       b_email (req_body req) = Some email → email ≠ "" →
       password ≠ passwordConfirm →
       TeamMemberController.createPassword req w
       = (Throw (CustomError
            "Password and Password Confirmation must match" 400), w)).
Proof.
  unfold TeamMemberController.createPassword. split_and!.
  - intros Hhd. unfold required. by rewrite Hhd.
  - intros authz -> Hne Hsp. rewrite required_truthy by done.
    rewrite split_no_sep by done. simpl.
    by destruct (required (Some authz)).
  - intros prefix token pw pc em -> Hp Ht Hp' Ht' -> Hpw -> Hpc -> Hem Hdiff.
    rewrite required_truthy by by destruct prefix.
    rewrite split_first, split_no_sep by done. simpl.
    rewrite !required_truthy by done.
    by rewrite eqb_neq_false.
Qed.

(** ** Methods in sequence *)

Lemma find_app_fresh wh (rows : list TeamMember) x :
  (∀ tm, tm ∈ rows → matches wh tm = false) → matches wh x = true →
  find wh (rows ++ [x]) = Some (length rows, x).
Proof.
  intros Hno Hx. unfold find.
  rewrite list_find_app_r by by apply find_none.
  simpl. by rewrite decide_True.
Qed.

Lemma create_run o adminId input w :
  (∀ tm, tm ∈ table w →
         TeamMember.id tm ≠ fresh_id o ∧ TeamMember.email tm ≠ in_email input) →
  table (snd (TeamMemberService.create o adminId input w))
  = table w ++ [newRow (fresh_id o) adminId input
                       (crypto_hash (fresh_token o))].
Proof.
  intros Hfresh.
  unfold TeamMemberService.create, prisma.create,
    mailer.sendCreatePasswordInviteToTeamMember. run.
  rewrite taken_false by done. simpl. by destruct (mail_outcome o).
Qed.

(** X17: a member that has just been invited can be deleted by the admin
    who invited it, under the id the store gave it, and the table is then
    what it was before the invitation. *)
Theorem create_then_delete_restores_table (o : Oracle) (adminId : string)
  (input : Input) (w : World) :
  (∀ tm, tm ∈ table w →
         TeamMember.id tm ≠ fresh_id o ∧ TeamMember.email tm ≠ in_email input) →
  let w1 := snd (TeamMemberService.create o adminId input w) in
  fst (TeamMemberService.delete adminId (fresh_id o) w1) = Ok ()
  ∧ table (snd (TeamMemberService.delete adminId (fresh_id o) w1)) = table w.
Proof.
  intros Hfresh w1.
  pose proof (create_run o adminId input w Hfresh) as Htable. fold w1 in Htable.
  assert (find (ById (fresh_id o)) (table w1)
          = Some (length (table w),
                  newRow (fresh_id o) adminId input
                         (crypto_hash (fresh_token o)))) as Hfind.
  { rewrite Htable. apply find_app_fresh.
    - intros tm Hin. apply eqb_neq_false. by apply Hfresh.
    - apply String.eqb_refl. }
  unfold TeamMemberService.delete, prisma.delete. run.
  rewrite Hfind. simpl. rewrite String.eqb_refl. simpl.
  rewrite Hfind. simpl. split; [done|].
  rewrite Htable. by rewrite delete_middle, app_nil_r.
Qed.

(** X18: deactivating an ACTIVE member and then reactivating it, both by its
    owner, succeeds twice and gives back the table as it was. *)
Theorem deactivate_then_reactivate (w : World) (i : nat) (tm : TeamMember) :
  wf (table w) → table w !! i = Some tm →
  TeamMember.status tm = ACTIVE →
  let adminId := TeamMember.adminId tm in
  let teamMemberId := TeamMember.id tm in
  let w1 := snd (TeamMemberService.changeStatus adminId teamMemberId
                   DEACTIVATED w) in
  fst (TeamMemberService.changeStatus adminId teamMemberId DEACTIVATED w)
  = Ok ()
  ∧ table w1 !! i = Some (withStatus DEACTIVATED tm)
  ∧ fst (TeamMemberService.changeStatus adminId teamMemberId ACTIVE w1)
    = Ok ()
  ∧ table (snd (TeamMemberService.changeStatus adminId teamMemberId ACTIVE
                  w1))
    = table w.
Proof.
  intros Hwf Hi Hst adminId teamMemberId w1.
  assert (TeamMember.status tm ≠ INACTIVE) as Hact by congruence.
  pose proof (changeStatus_flips DEACTIVATED w i tm Hwf Hi Hact) as Hrun.
  fold adminId teamMemberId in Hrun.
  assert (table w1 = <[i := withStatus DEACTIVATED tm]> (table w)) as Htable
    by (subst w1; by rewrite Hrun).
  assert (table w1 !! i = Some (withStatus DEACTIVATED tm)) as Hi1.
  { rewrite Htable. apply list_lookup_insert_eq. by eapply lookup_lt_Some. }
  assert (wf (table w1)) as Hwf1.
  { subst w1. eapply step_wf; [exact Hwf|]. by apply changeStatus_step. }
  pose proof (changeStatus_flips ACTIVE w1 i (withStatus DEACTIVATED tm)
                Hwf1 Hi1) as Hrun1.
  simpl in Hrun1. fold adminId teamMemberId in Hrun1.
  rewrite Hrun, Hrun1 by done. simpl. split_and!; try done.
  rewrite Htable, list_insert_insert_eq.
  apply list_insert_id. rewrite Hi. f_equal.
  destruct tm; simpl in *; by subst.
Qed.

(** X19: invitation, password set-up and login in sequence. After [create],
    [createPassword] with the mailed token, the address of the invitation
    and a password succeeds, and [login] with that address and that password
    then returns the credential signed over the new row's id and the
    inviting admin, provided [bcrypt.compare] accepts a password against its
    own [bcrypt.hash]. *)
Theorem invite_setup_login (o o' : Oracle) (adminId password : string)
  (input : Input) (w : World) :
  (∀ tm, tm ∈ table w →
         TeamMember.id tm ≠ fresh_id o ∧ TeamMember.email tm ≠ in_email input) →
  bcrypt_compare password (Some (bcrypt_hash password)) = true →
  let w1 := snd (TeamMemberService.create o adminId input w) in
  let w2 := snd (TeamMemberService.createPassword (fresh_token o) password
                   (in_email input) w1) in
  fst (TeamMemberService.createPassword (fresh_token o) password
         (in_email input) w1) = Ok ()
  ∧ TeamMemberService.login o' (in_email input) password w2
    = (Ok (jwt_sign {| jwt_teamMember_id := fresh_id o;
                       jwt_teamMember_adminId := adminId |}
                    JWT_SECRET "2 days"), w2).
Proof.
  intros Hfresh Hcmp w1 w2.
  set (row := newRow (fresh_id o) adminId input
                     (crypto_hash (fresh_token o))).
  pose proof (create_run o adminId input w Hfresh) as Htable.
  fold w1 row in Htable.
  assert (∀ tm, tm ∈ table w →
                matches (ByEmail (in_email input)) tm = false) as Hemail.
  { intros tm Hin. apply eqb_neq_false. by apply Hfresh. }
  assert (is_Some (find (ByInviteToken (crypto_hash (fresh_token o)))
                        (table w1))) as [[j found] Hfound].
  { apply (list_find_elem_of _ _ row).
    - rewrite Htable. apply elem_of_app. right.
      by apply list_elem_of_singleton.
    - simpl. apply String.eqb_refl. }
  assert (TeamMemberService.createPassword (fresh_token o) password
            (in_email input) w1
          = (Ok (), {| table := table w ++ [activated (bcrypt_hash password)
                                                      row];
                       effects := effects w1 ++ [DbUpdate (fresh_id o)] |}))
    as Hset.
  { unfold TeamMemberService.createPassword. run.
    rewrite Hfound. simpl. unfold prisma.update.
    rewrite Htable, (find_app_fresh _ _ row Hemail (String.eqb_refl _)).
    simpl. rewrite String.eqb_refl. simpl.
    replace (length (table w)) with (length (table w) + 0) by lia.
    by rewrite insert_app_r. }
  subst w2. rewrite Hset. simpl. split; [done|].
  unfold TeamMemberService.login. run.
  rewrite (find_app_fresh _ _ (activated (bcrypt_hash password) row) Hemail
             (String.eqb_refl _)).
  simpl. by rewrite Hcmp.
Qed.

(** X20: an invite token is used up by the password set-up. When one row
    only stores the hash of the token, [createPassword] with the token and
    the address of that row succeeds, and every later [createPassword] with
    the same token fails with "Invalid Token" and writes nothing. *)
Theorem invite_token_is_single_use (token password password' email' : string)
  (w : World) (i : nat) (tm : TeamMember) :
  wf (table w) → table w !! i = Some tm →
  TeamMember.inviteToken tm = Some (crypto_hash token) →
  (∀ j other, table w !! j = Some other → j ≠ i →
              TeamMember.inviteToken other ≠ Some (crypto_hash token)) →
  let w1 := snd (TeamMemberService.createPassword token password
                   (TeamMember.email tm) w) in
  fst (TeamMemberService.createPassword token password (TeamMember.email tm)
         w) = Ok ()
  ∧ TeamMemberService.createPassword token password' email' w1
    = (Throw (CustomError "Invalid Token" 400), w1).
Proof.
  intros Hwf Hi Htoken Hothers w1.
  assert (is_Some (find (ByInviteToken (crypto_hash token)) (table w)))
    as [[j found] Hfound].
  { apply (list_find_elem_of _ _ tm).
    - apply list_elem_of_lookup. eauto.
    - simpl. rewrite Htoken. apply String.eqb_refl. }
  pose proof (createPassword_updates_by_email token password
                (TeamMember.email tm) w j found i tm Hwf Hfound Hi eq_refl)
    as Hrun.
  subst w1. rewrite Hrun. simpl. split; [done|].
  unfold TeamMemberService.createPassword. run.
  rewrite find_none; [done|].
  intros row [k Hk]%list_elem_of_lookup. simpl in Hk.
  apply list_lookup_insert_Some in Hk as [(-> & <- & _)|[Hne Hk]].
  - done.
  - apply matches_token_false. by apply (Hothers k).
Qed.

(** X21: in a table with unique ids, [delete] succeeds exactly when the row
    with the id is owned by the caller and INACTIVE; after a successful
    delete no row has the id. *)
Theorem delete_succeeds_iff (adminId teamMemberId : string) (w : World) :
  wf (table w) →
  (fst (TeamMemberService.delete adminId teamMemberId w) = Ok ()
   ↔ ∃ tm, tm ∈ table w ∧ TeamMember.id tm = teamMemberId
           ∧ TeamMember.adminId tm = adminId
           ∧ TeamMember.status tm = INACTIVE)
  ∧ (fst (TeamMemberService.delete adminId teamMemberId w) = Ok () →
     ∀ tm', tm' ∈ table (snd (TeamMemberService.delete adminId teamMemberId
                                w)) →
            TeamMember.id tm' ≠ teamMemberId).
Proof.
  intros Hwf.
  assert (fst (TeamMemberService.delete adminId teamMemberId w) = Ok () →
          ∃ i tm, table w !! i = Some tm ∧ TeamMember.id tm = teamMemberId
                  ∧ TeamMember.adminId tm = adminId
                  ∧ TeamMember.status tm = INACTIVE) as Hok.
  { unfold TeamMemberService.delete. run.
    destruct (find (ById teamMemberId) (table w)) as [[i tm]|] eqn:Hfind;
      simpl; [|done].
    apply find_id in Hfind as [Hi Hid].
    destruct (String.eqb (TeamMember.adminId tm) adminId) eqn:Hadm; simpl;
      [|done].
    apply String.eqb_eq in Hadm.
    destruct (TeamMember.status tm) eqn:Hst; simpl; try done.
    intros _. by exists i, tm. }
  split.
  - split.
    + intros (i & tm & Hi & ?)%Hok. exists tm. split; [|done].
      apply list_elem_of_lookup. eauto.
    + intros (tm & [i Hi]%list_elem_of_lookup & <- & <- & Hst).
      by rewrite (delete_inactive w i tm).
  - intros (i & tm & Hi & <- & <- & Hst)%Hok.
    rewrite (delete_inactive w i tm) by done. simpl.
    intros tm' [k Hk]%list_elem_of_lookup Hid.
    destruct Hwf as [Hnd _].
    destruct (decide (k < i)) as [Hlt|Hge].
    + rewrite list_lookup_delete_lt in Hk by done.
      assert (k = i); [|lia].
      apply (NoDup_lookup (TeamMember.id <$> table w) k i (TeamMember.id tm)
               Hnd);
        rewrite list_lookup_fmap; [rewrite Hk|rewrite Hi]; simpl; congruence.
    + rewrite list_lookup_delete_ge in Hk by lia.
      assert (S k = i); [|lia].
      apply (NoDup_lookup (TeamMember.id <$> table w) (S k) i
               (TeamMember.id tm) Hnd);
        rewrite list_lookup_fmap; [rewrite Hk|rewrite Hi]; simpl; congruence.
Qed.

(** X22: the login handler answers the 400 "All fields required" error,
    without writing, when [email] or [password] is absent or empty; when it
    answers at all, the status is 200 and the body is the credential that
    [login] returned for the address and the password of the body. *)
Theorem login_handler_validates (o : Oracle) (req : Request) (w : World) :
  (truthy (b_email (req_body req)) && truthy (b_password (req_body req))
   = false →
   TeamMemberController.login o req w
   = (Throw (CustomError "All fields required: email and password" 400), w))
  ∧ (∀ resp,
       fst (TeamMemberController.login o req w) = Ok resp →
       ∃ email password jwt,
         b_email (req_body req) = Some email
         ∧ b_password (req_body req) = Some password
         ∧ fst (TeamMemberService.login o email password w) = Ok jwt
         ∧ resp = mkResponse 200 (Token jwt)).
Proof.
  unfold TeamMemberController.login, required. split.
  - destruct (truthy (b_email (req_body req))); simpl.
    + intros ->. by destruct (b_email (req_body req)).
    + done.
  - intros resp.
    destruct (truthy (b_email (req_body req))); [|done].
    destruct (b_email (req_body req)) as [em|]; [|done].
    destruct (truthy (b_password (req_body req))); [|done].
    destruct (b_password (req_body req)) as [pw|]; [|done].
    run.
    destruct (TeamMemberService.login o em pw w) as [[jwt|e] w'] eqn:Hrun;
      simpl; [|done].
    intros [= <-]. exists em, pw, jwt. by rewrite Hrun.
Qed.

(** X23: once its owner has deactivated an ACTIVE member, [login] for the
    member's address fails with status 401 whatever the password, and
    writes nothing. *)
Theorem deactivated_member_cannot_login (o : Oracle) (password : string)
  (w : World) (i : nat) (tm : TeamMember) :
  wf (table w) → table w !! i = Some tm →
  TeamMember.status tm = ACTIVE →
  let w1 := snd (TeamMemberService.changeStatus (TeamMember.adminId tm)
                   (TeamMember.id tm) DEACTIVATED w) in
  TeamMemberService.login o (TeamMember.email tm) password w1
  = (Throw (CustomError
       "Oops. You do not have an access to the platform anymore!" 401), w1).
Proof.
  intros Hwf Hi Hst w1.
  assert (TeamMember.status tm ≠ INACTIVE) as Hact by congruence.
  pose proof (changeStatus_flips DEACTIVATED w i tm Hwf Hi Hact) as Hrun.
  assert (table w1 !! i = Some (withStatus DEACTIVATED tm)) as Hi1.
  { subst w1. rewrite Hrun. simpl.
    apply list_lookup_insert_eq. by eapply lookup_lt_Some. }
  assert (wf (table w1)) as Hwf1.
  { subst w1. eapply step_wf; [exact Hwf|]. by apply changeStatus_step. }
  exact (login_deactivated o password w1 i (withStatus DEACTIVATED tm)
           Hwf1 Hi1 eq_refl).
Qed.

(** X24: a member that has just been invited is listed by [getAll] for the
    inviting admin, with status INACTIVE, and [getMe] for the id the store
    gave it returns its profile. *)
Theorem create_then_listed (o : Oracle) (adminId : string) (input : Input)
  (w : World) :
  (∀ tm, tm ∈ table w →
         TeamMember.id tm ≠ fresh_id o ∧ TeamMember.email tm ≠ in_email input) →
  let row := newRow (fresh_id o) adminId input (crypto_hash (fresh_token o)) in
  let w1 := snd (TeamMemberService.create o adminId input w) in
  (∃ teamMembers,
     TeamMemberService.getAll adminId w1 = (Ok teamMembers, w1)
     ∧ select getAllSelect row ∈ teamMembers)
  ∧ select getAllSelect row !! "status" = Some (VString "INACTIVE")
  ∧ select getAllSelect row !! "email" = Some (VString (in_email input))
  ∧ TeamMemberService.getMe (fresh_id o) w1
    = (Ok (<["role" := VString "teamMember"]> (select getMeSelect row)), w1).
Proof.
  intros Hfresh row w1.
  pose proof (create_run o adminId input w Hfresh) as Htable.
  fold w1 row in Htable.
  split_and!.
  - eexists. split; [reflexivity|].
    apply list_elem_of_fmap. exists row. split; [done|].
    apply list_elem_of_In, filter_In. split.
    + apply list_elem_of_In. rewrite Htable. apply elem_of_app. right.
      by apply list_elem_of_singleton.
    + apply String.eqb_refl.
  - by vm_compute.
  - by vm_compute.
  - unfold TeamMemberService.getMe. run.
    rewrite Htable, (find_app_fresh _ _ row); [done| |apply String.eqb_refl].
    intros tm Hin. apply eqb_neq_false. by apply Hfresh.
Qed.

End Handlers.

(** * The methods on the sample table *)

#[local] Existing Instance sampleUtils.

Ltac by_computation := apply (bool_decide_unpack _); vm_compute; reflexivity.

Lemma sampleWorld_wf : wf (table sampleWorld).
Proof. unfold wf. by_computation. Qed.

Lemma changeStatus_spec_witness :
  TeamMemberService.changeStatus "admin-A" "tm-404" ACTIVE sampleWorld
  = (Throw (CustomError
       "Team member does not exist with following id tm-404" 404),
     sampleWorld)
  ∧ TeamMemberService.changeStatus "admin-A" "tm-2" DEACTIVATED sampleWorld
    = (Throw (CustomError
         "Forbidden: You are not authorized to perform this action" 403),
       sampleWorld)
  ∧ TeamMemberService.delete "admin-A" "tm-2" sampleWorld
    = (Throw (CustomError
         "Forbidden: You are not authorized to perform this action" 403),
       sampleWorld)
  ∧ TeamMemberService.changeStatus "admin-A" "tm-1" ACTIVE sampleWorld
    = (Throw (CustomError
         "Status Change is now allowed. Users with INACTIVE status can be deleted only!"
         403), sampleWorld)
  ∧ TeamMemberService.changeStatus "admin-B" "tm-2" DEACTIVATED sampleWorld
    = (Ok (), {| table := [jane; withStatus DEACTIVATED bob; carol];
                 effects := [DbUpdate "tm-2"] |}).
Proof.
  split_and!.
  - apply (changeStatus_spec "admin-A" "tm-404" ACTIVE sampleWorld
             sampleWorld_wf).
    apply Forall_forall. by_computation.
  - apply (changeStatus_spec "admin-A" "tm-2" DEACTIVATED sampleWorld
             sampleWorld_wf) with (i := 1) (tm := bob);
      [reflexivity|reflexivity|discriminate].
  - apply (changeStatus_spec "admin-A" "tm-2" DEACTIVATED sampleWorld
             sampleWorld_wf) with (i := 1) (tm := bob);
      [reflexivity|reflexivity|discriminate].
  - apply (changeStatus_spec "admin-A" "tm-1" ACTIVE sampleWorld
             sampleWorld_wf) with (i := 0) (tm := jane); reflexivity.
  - apply (changeStatus_spec "admin-B" "tm-2" DEACTIVATED sampleWorld
             sampleWorld_wf) with (i := 1) (tm := bob);
      [reflexivity|reflexivity|reflexivity|discriminate].
Defined.

(** C1, on the code: Jane's invite token together with Bob's e-mail address.
    The token hash selects Jane's row, the update goes to Bob's: Bob's
    password is replaced, Jane's row is left as it was, and the method
    succeeds; the same through the handler, which answers 200. *)
Theorem createPassword_updates_another_row :
  find (ByInviteToken (crypto_hash "tok-jane")) (table sampleWorld)
  = Some (0, jane)
  ∧ find (ByEmail "bob@x.com") (table sampleWorld) = Some (1, bob)
  ∧ TeamMemberService.createPassword "tok-jane" "intruder" "bob@x.com"
      sampleWorld
    = (Ok (), {| table := [jane; activated (bcrypt_hash "intruder") bob; carol];
                 effects := [DbUpdate "tm-2"] |})
  ∧ TeamMemberController.createPassword
      {| req_adminId := ""; req_teamMember_id := ""; req_params_id := "";
         req_headers_authorization := Some "Bearer tok-jane";
         req_body := mkBody None None (Some "bob@x.com") None None
                       (Some "intruder") (Some "intruder") |}
      sampleWorld
    = (Ok (mkResponse 200 (Message
         "You successfully created a password. Now, you can log in")),
       {| table := [jane; activated (bcrypt_hash "intruder") bob; carol];
          effects := [DbUpdate "tm-2"] |}).
Proof. split_and!; by vm_compute. Qed.

Lemma createPassword_invalid_token_witness :
  TeamMemberService.createPassword "tok-unknown" "secret" "jane@x.com"
    sampleWorld
  = (Throw (CustomError "Invalid Token" 400), sampleWorld).
Proof.
  apply (createPassword_invalid_token "tok-unknown" "secret" "jane@x.com"
           sampleWorld).
  apply Forall_forall. by_computation.
Defined.

(** C2 as stated fails: no row stores the hash of the token, and the error is
    not of status 404. *)
Lemma unknown_token_error_is_not_404 :
  (∀ tm, tm ∈ table sampleWorld →
         TeamMember.inviteToken tm ≠ Some (crypto_hash "tok-unknown"))
  ∧ ¬ ∃ message,
        fst (TeamMemberService.createPassword "tok-unknown" "secret"
               "jane@x.com" sampleWorld)
        = Throw (CustomError message 404).
Proof.
  split.
  - apply Forall_forall. by_computation.
  - intros [message Heq]. vm_compute in Heq. discriminate.
Qed.

(** C3, on the code: the owner deletes an ACTIVE and a DEACTIVATED member;
    both calls are rejected and the table is unchanged, but the status of
    the error is 404, not 403. *)
Theorem delete_rejects_with_404 :
  TeamMemberService.delete "admin-B" "tm-2" sampleWorld
  = (Throw (CustomError "Only users with INACTIVE status can be deleted!" 404),
     sampleWorld)
  ∧ TeamMemberService.delete "admin-A" "tm-3" sampleWorld
    = (Throw (CustomError "Only users with INACTIVE status can be deleted!"
                404), sampleWorld)
  ∧ TeamMemberService.delete "admin-A" "tm-1" sampleWorld
    = (Ok (), {| table := [bob; carol]; effects := [DbDelete "tm-1"] |}).
Proof. split_and!; by vm_compute. Qed.

Lemma create_persists_then_mails_witness :
  table (snd (TeamMemberService.create sampleOracle "admin-A" dave sampleWorld))
  = [jane; bob; carol; newRow "tm-4" "admin-A" dave (crypto_hash "tok-new")]
  ∧ effects (snd (TeamMemberService.create failingMailOracle "admin-A" dave
                    sampleWorld))
    = [DbCreate "tm-4";
       MailerCall "dave@x.com" "tok-new" (MailRejected "smtp unreachable")]
  ∧ fst (TeamMemberService.create sampleOracle "admin-A" dave sampleWorld)
    = Ok (select createSelect
            (newRow "tm-4" "admin-A" dave (crypto_hash "tok-new")))
  ∧ fst (TeamMemberService.create failingMailOracle "admin-A" dave sampleWorld)
    = Throw (MailerError "smtp unreachable").
Proof.
  assert (∀ tm, tm ∈ table sampleWorld →
                TeamMember.id tm ≠ "tm-4"
                ∧ TeamMember.email tm ≠ "dave@x.com") as Hfresh.
  { apply Forall_forall. by_computation. }
  split_and!.
  - apply (create_persists_then_mails sampleOracle "admin-A" dave sampleWorld
             Hfresh).
  - apply (create_persists_then_mails failingMailOracle "admin-A" dave
             sampleWorld Hfresh).
  - apply (create_persists_then_mails sampleOracle "admin-A" dave sampleWorld
             Hfresh).
  - apply (create_persists_then_mails failingMailOracle "admin-A" dave
             sampleWorld Hfresh).
Defined.

(** C5 as stated fails: the input is complete, its e-mail address is free and
    the row is inserted, but when the mailer rejects, [create] returns
    nothing: it throws the mailer's error. *)
Lemma create_fails_when_mailer_rejects :
  (∀ tm, tm ∈ table sampleWorld →
         TeamMember.id tm ≠ "tm-4" ∧ TeamMember.email tm ≠ "dave@x.com")
  ∧ newRow "tm-4" "admin-A" dave (crypto_hash "tok-new")
    ∈ table (snd (TeamMemberService.create failingMailOracle "admin-A" dave
                    sampleWorld))
  ∧ ¬ ∃ teamMember,
        fst (TeamMemberService.create failingMailOracle "admin-A" dave
               sampleWorld)
        = Ok teamMember.
Proof.
  split_and!.
  - apply Forall_forall. by_computation.
  - apply list_elem_of_lookup. by exists 3.
  - intros [teamMember Heq]. vm_compute in Heq. discriminate.
Qed.



Lemma login_active_witness :
  TeamMemberService.login sampleOracle "bob@x.com" "bobs-secret" sampleWorld
  = (Ok "jwt{tm-2,admin-B}secret/2 days", sampleWorld)
  ∧ TeamMemberService.login sampleOracle "bob@x.com" "guess" sampleWorld
    = (Throw (CustomError "Invalid Credentials" 401), sampleWorld).
Proof.
  split.
  - exact (proj1 (login_active sampleOracle "bobs-secret" sampleWorld 1 bob
                    sampleWorld_wf eq_refl eq_refl) eq_refl).
  - exact (proj2 (login_active sampleOracle "guess" sampleWorld 1 bob
                    sampleWorld_wf eq_refl eq_refl) eq_refl).
Defined.

(** The sample requests leave Bob ACTIVE, renamed, with his family name
    (supplied empty) untouched. *)
Example serveAll_sampleCalls :
  table (serveAll sampleCalls sampleWorld)
  = [jane;
     {| TeamMember.id := "tm-2";
        TeamMember.adminId := "admin-B";
        TeamMember.firstName := "Robert";
        TeamMember.lastName := "Roe";
        TeamMember.position := "Ops";
        TeamMember.joinDate := "2023-05-05";
        TeamMember.email := "bob@x.com";
        TeamMember.password := Some "bcrypt(bobs-secret)";
        TeamMember.inviteToken := None;
        TeamMember.status := ACTIVE |};
     carol].
Proof. by vm_compute. Qed.

Lemma never_back_to_inactive_witness :
  (∃ tm', tm' ∈ table (serveAll sampleCalls sampleWorld)
          ∧ TeamMember.id tm' = "tm-2")
  ∧ (∀ tm', tm' ∈ table (serveAll sampleCalls sampleWorld) →
            TeamMember.id tm' = "tm-2" →
            TeamMember.status tm' = ACTIVE
            ∨ TeamMember.status tm' = DEACTIVATED).
Proof.
  assert (bob ∈ table sampleWorld) as Hin.
  { apply list_elem_of_lookup. by exists 1. }
  assert (TeamMember.status bob ≠ INACTIVE) as Hact by discriminate.
  pose proof (never_back_to_inactive sampleCalls sampleWorld bob
                sampleWorld_wf Hin Hact) as (Hkept & Hstatus & _).
  split; assumption.
Defined.

Lemma projections_hide_secrets_witness :
  match fst (TeamMemberService.create sampleOracle "admin-A" dave sampleWorld)
  with
  | Ok teamMember =>
      teamMember !! "password" = None
      ∧ teamMember !! "email" = Some (VString "dave@x.com")
  | Throw _ => False
  end
  ∧ match fst (TeamMemberService.getAll "admin-A" sampleWorld) with
    | Ok teamMembers =>
        length teamMembers = 2
        ∧ ∀ teamMember, teamMember ∈ teamMembers →
                        teamMember !! "inviteToken" = None
    | Throw _ => False
    end
  ∧ match fst (TeamMemberService.getMe "tm-2" sampleWorld) with
    | Ok me =>
        me !! "password" = None
        ∧ me !! "role" = Some (VString "teamMember")
    | Throw _ => False
    end.
Proof.
  assert ("password" ∈ secretColumns) as Hpassword by by_computation.
  assert ("inviteToken" ∈ secretColumns) as Htoken by by_computation.
  destruct (projections_hide_secrets "password" Hpassword)
    as (Hcreate & _ & HgetMe).
  destruct (projections_hide_secrets "inviteToken" Htoken)
    as (_ & HgetAll & _).
  split_and!.
  - destruct (fst (TeamMemberService.create sampleOracle "admin-A" dave
                     sampleWorld)) as [teamMember|e] eqn:Hrun.
    + split; [by eapply Hcreate|].
      vm_compute in Hrun. injection Hrun as <-. by vm_compute.
    + vm_compute in Hrun. discriminate.
  - destruct (fst (TeamMemberService.getAll "admin-A" sampleWorld))
      as [teamMembers|e] eqn:Hrun.
    + split; [|intros teamMember; by eapply HgetAll].
      vm_compute in Hrun. by injection Hrun as <-.
    + vm_compute in Hrun. discriminate.
  - destruct (fst (TeamMemberService.getMe "tm-2" sampleWorld))
      as [me|e] eqn:Hrun.
    + split; [by eapply HgetMe|].
      vm_compute in Hrun. injection Hrun as <-. by vm_compute.
    + vm_compute in Hrun. discriminate.
Defined.

Lemma update_applies_supplied_profile_fields_witness :
  TeamMemberController.update
    (adminRequest "admin-B" "tm-2"
       (mkBody (Some "Robert") (Some "") None None None None None))
    sampleWorld
  = (Ok (mkResponse 204 NoContent),
     {| table :=
          [jane;
           {| TeamMember.id := "tm-2";
              TeamMember.adminId := "admin-B";
              TeamMember.firstName := "Robert";
              TeamMember.lastName := "Roe";
              TeamMember.position := "Ops";
              TeamMember.joinDate := "2023-05-05";
              TeamMember.email := "bob@x.com";
              TeamMember.password := Some "bcrypt(bobs-secret)";
              TeamMember.inviteToken := None;
              TeamMember.status := ACTIVE |};
           carol];
        effects := [DbUpdate "tm-2"] |}).
Proof.
  exact (proj1 (update_applies_supplied_profile_fields
                  (adminRequest "admin-B" "tm-2"
                     (mkBody (Some "Robert") (Some "") None None None None
                        None))
                  sampleWorld 1 bob sampleWorld_wf eq_refl eq_refl eq_refl)).
Defined.

(** ** The further properties on the sample table *)

Lemma rejected_request_writes_nothing_witness :
  snd (handle OpDelete sampleOracle (adminRequest "admin-A" "tm-2" emptyBody)
         sampleWorld)
  = sampleWorld.
Proof.
  apply (rejected_request_writes_nothing OpDelete sampleOracle
           (adminRequest "admin-A" "tm-2" emptyBody) sampleWorld
           (CustomError
              "Forbidden: You are not authorized to perform this action"
              403)).
  - reflexivity.
  - intros reason. discriminate.
  - discriminate.
Defined.

Lemma admin_request_spares_other_admins_witness :
  bob ∈ table (snd (handle OpDelete sampleOracle
                      (adminRequest "admin-A" "tm-1" emptyBody) sampleWorld)).
Proof.
  apply (admin_request_spares_other_admins OpDelete sampleOracle
           (adminRequest "admin-A" "tm-1" emptyBody) sampleWorld bob).
  - by do 3 right.
  - apply list_elem_of_lookup. by exists 1.
  - simpl. discriminate.
Defined.

Lemma request_keeps_owner_and_email_witness :
  robert ∈ table (snd (handle OpUpdate sampleOracle renameRequest sampleWorld))
  ∧ TeamMember.adminId robert = TeamMember.adminId bob
  ∧ TeamMember.email robert = TeamMember.email bob.
Proof.
  assert (robert ∈ table (snd (handle OpUpdate sampleOracle renameRequest
                                 sampleWorld))) as Hin'.
  { apply list_elem_of_lookup. exists 1. vm_compute. reflexivity. }
  split; [exact Hin'|].
  apply (request_keeps_owner_and_email OpUpdate sampleOracle renameRequest
           sampleWorld bob robert sampleWorld_wf).
  - apply list_elem_of_lookup. by exists 1.
  - exact Hin'.
  - reflexivity.
Defined.

Lemma columns_written_by_witness :
  TeamMember.password (withInviteToken (Some "h(tok-new)") jane)
  = TeamMember.password jane
  ∧ TeamMember.status (withInviteToken (Some "h(tok-new)") jane)
    = TeamMember.status jane
  ∧ TeamMember.firstName (withInviteToken (Some "h(tok-new)") jane)
    = TeamMember.firstName jane.
Proof.
  assert (withInviteToken (Some "h(tok-new)") jane
          ∈ table (snd (handle OpLogin sampleOracle
                          (loginRequest "jane@x.com" "guess") sampleWorld)))
    as Hin'.
  { apply list_elem_of_lookup. exists 0. vm_compute. reflexivity. }
  assert (jane ∈ table sampleWorld) as Hin.
  { apply list_elem_of_lookup. by exists 0. }
  destruct (columns_written_by OpLogin sampleOracle
              (loginRequest "jane@x.com" "guess") sampleWorld jane
              (withInviteToken (Some "h(tok-new)") jane)
              sampleWorld_wf Hin Hin' eq_refl)
    as (Hpassword & _ & Hstatus & Hprofile).
  split_and!.
  - apply Hpassword. discriminate.
  - apply Hstatus; discriminate.
  - apply Hprofile. discriminate.
Defined.

Lemma status_transitions_witness :
  TeamMember.status (withStatus DEACTIVATED bob) = TeamMember.status bob
  ∨ (OpDeactivate = OpCreatePassword
     ∧ TeamMember.status (withStatus DEACTIVATED bob) = ACTIVE)
  ∨ (OpDeactivate = OpDeactivate ∧ TeamMember.status bob ≠ INACTIVE
     ∧ TeamMember.adminId bob = "admin-B"
     ∧ TeamMember.status (withStatus DEACTIVATED bob) = DEACTIVATED)
  ∨ (OpDeactivate = OpReactivate ∧ TeamMember.status bob ≠ INACTIVE
     ∧ TeamMember.adminId bob = "admin-B"
     ∧ TeamMember.status (withStatus DEACTIVATED bob) = ACTIVE).
Proof.
  apply (status_transitions OpDeactivate sampleOracle
           (adminRequest "admin-B" "tm-2" emptyBody) sampleWorld bob
           (withStatus DEACTIVATED bob) sampleWorld_wf).
  - apply list_elem_of_lookup. by exists 1.
  - apply list_elem_of_lookup. exists 1. vm_compute. reflexivity.
  - reflexivity.
Defined.

Lemma row_removed_only_by_delete_witness :
  OpDelete = OpDelete
  ∧ TeamMember.status jane = INACTIVE
  ∧ TeamMember.adminId jane = "admin-A"
  ∧ TeamMember.id jane = "tm-1".
Proof.
  apply (row_removed_only_by_delete OpDelete sampleOracle
           (adminRequest "admin-A" "tm-1" emptyBody) sampleWorld jane).
  - apply list_elem_of_lookup. by exists 0.
  - apply Forall_forall. by_computation.
Defined.

Lemma password_set_only_with_stored_token_witness :
  ∃ token found,
    split " " "Bearer tok-jane" !! 1%nat = Some token
    ∧ found ∈ table sampleWorld
    ∧ TeamMember.inviteToken found = Some (crypto_hash token).
Proof.
  assert (fst (TeamMemberController.createPassword
                 (setupRequest "tok-jane" "s3cret" "s3cret" "jane@x.com")
                 sampleWorld)
          = Ok (mkResponse 200 (Message
              "You successfully created a password. Now, you can log in")))
    as Hrun by (vm_compute; reflexivity).
  destruct (password_set_only_with_stored_token
              (setupRequest "tok-jane" "s3cret" "s3cret" "jane@x.com")
              sampleWorld _ Hrun)
    as (authorization & token & password & found & tm & Hhd & Hsplit & _ & _
        & _ & _ & Hin & Htoken & _).
  injection Hhd as <-. by exists token, found.
Defined.

Lemma credential_only_for_active_member_witness :
  ∃ tm,
    tm ∈ table sampleWorld
    ∧ TeamMember.email tm = "bob@x.com"
    ∧ TeamMember.status tm = ACTIVE
    ∧ bcrypt_compare "bobs-secret" (TeamMember.password tm) = true
    ∧ "jwt{tm-2,admin-B}secret/2 days"
      = jwt_sign {| jwt_teamMember_id := TeamMember.id tm;
                    jwt_teamMember_adminId := TeamMember.adminId tm |}
                 JWT_SECRET "2 days"
    ∧ snd (TeamMemberService.login sampleOracle "bob@x.com" "bobs-secret"
             sampleWorld) = sampleWorld.
Proof.
  apply (credential_only_for_active_member sampleOracle "bob@x.com"
           "bobs-secret" sampleWorld "jwt{tm-2,admin-B}secret/2 days").
  reflexivity.
Defined.

Lemma login_unknown_or_deactivated_witness :
  TeamMemberService.login sampleOracle "nobody@x.com" "guess" sampleWorld
  = (Throw (CustomError "Team member does not exist" 404), sampleWorld)
  ∧ TeamMemberService.login sampleOracle "carol@x.com" "carols-secret"
      sampleWorld
    = (Throw (CustomError
         "Oops. You do not have an access to the platform anymore!" 401),
       sampleWorld).
Proof.
  split.
  - apply (login_unknown_or_deactivated sampleOracle "nobody@x.com" "guess"
             sampleWorld).
    apply Forall_forall. by_computation.
  - apply (login_unknown_or_deactivated sampleOracle "carol@x.com"
             "carols-secret" sampleWorld) with (i := 2) (tm := carol);
      [exact sampleWorld_wf|reflexivity..].
Defined.

Lemma ownership_gate_witness :
  fst (TeamMemberService.isTeamMemberBelongsToAdmin "tm-2" "admin-B"
         sampleWorld) = Ok ()
  ∧ fst (TeamMemberService.isTeamMemberBelongsToAdmin "tm-2" "admin-A"
           sampleWorld)
    = Throw (CustomError
        "Forbidden: You are not authorized to perform this action" 403)
  ∧ fst (TeamMemberService.isTeamMemberBelongsToAdmin "tm-9" "admin-A"
           sampleWorld)
    = Throw (CustomError "Team member does not exist" 404).
Proof.
  assert (bob ∈ table sampleWorld) as Hbob.
  { apply list_elem_of_lookup. by exists 1. }
  split_and!.
  - apply (ownership_gate "tm-2" "admin-B" sampleWorld sampleWorld_wf).
    by exists bob.
  - apply (ownership_gate "tm-2" "admin-A" sampleWorld sampleWorld_wf)
      with (tm := bob); [exact Hbob|reflexivity|discriminate].
  - apply (ownership_gate "tm-9" "admin-A" sampleWorld sampleWorld_wf).
    apply Forall_forall. by_computation.
Defined.

Lemma getMe_returns_profile_witness :
  (∃ me,
     TeamMemberService.getMe "tm-2" sampleWorld = (Ok me, sampleWorld)
     ∧ me !! "role" = Some (VString "teamMember")
     ∧ me !! "email" = Some (VString "bob@x.com")
     ∧ me !! "joinDate" = None)
  ∧ TeamMemberService.getMe "tm-9" sampleWorld
    = (Throw (CustomError "Team member does not exist" 404), sampleWorld).
Proof.
  split.
  - destruct (getMe_returns_profile "tm-2" sampleWorld) as [Hfound _].
    destruct (Hfound 1 bob sampleWorld_wf eq_refl eq_refl)
      as (me & Hrun & Hrole & _ & _ & Hemail & _ & _ & _ & _ & Hother).
    exists me. split_and!; [done..|].
    apply Hother. by_computation.
  - apply (getMe_returns_profile "tm-9" sampleWorld).
    apply Forall_forall. by_computation.
Defined.

Lemma createPassword_reads_bearer_token_witness :
  TeamMemberController.createPassword
    (setupRequest "tok-jane" "s3cret" "s3cret" "jane@x.com") sampleWorld
  = (TeamMemberService.createPassword "tok-jane" "s3cret" "jane@x.com";;
     mret (mkResponse 200 (Message
       "You successfully created a password. Now, you can log in")))
      sampleWorld.
Proof.
  apply (createPassword_reads_bearer_token "Bearer" "tok-jane" "s3cret"
           "jane@x.com");
    try reflexivity; discriminate.
Defined.

Lemma createPassword_rejections_witness :
  TeamMemberController.createPassword (adminRequest "" "" emptyBody)
    sampleWorld
  = (Throw (CustomError "Invite Token is missing" 401), sampleWorld)
  ∧ TeamMemberController.createPassword
      {| req_adminId := ""; req_teamMember_id := ""; req_params_id := "";
         req_headers_authorization := Some "tok-jane";
         req_body := emptyBody |}
      sampleWorld
    = (Throw (CustomError "Token was not sent in correct form" 400),
       sampleWorld)
  ∧ TeamMemberController.createPassword
      (setupRequest "tok-jane" "s3cret" "secret" "jane@x.com") sampleWorld
    = (Throw (CustomError "Password and Password Confirmation must match"
                400), sampleWorld).
Proof.
  split_and!.
  - by apply (createPassword_rejections (adminRequest "" "" emptyBody)
                sampleWorld).
  - apply (createPassword_rejections
             {| req_adminId := ""; req_teamMember_id := "";
                req_params_id := "";
                req_headers_authorization := Some "tok-jane";
                req_body := emptyBody |} sampleWorld) with "tok-jane";
      [reflexivity|discriminate|reflexivity].
  - apply (createPassword_rejections
             (setupRequest "tok-jane" "s3cret" "secret" "jane@x.com")
             sampleWorld)
      with "Bearer" "tok-jane" "s3cret" "secret" "jane@x.com";
      try reflexivity; discriminate.
Defined.

Lemma dave_is_new :
  ∀ tm, tm ∈ table sampleWorld →
        TeamMember.id tm ≠ fresh_id sampleOracle
        ∧ TeamMember.email tm ≠ in_email dave.
Proof. apply Forall_forall. by_computation. Qed.

Lemma create_then_delete_restores_table_witness :
  fst (TeamMemberService.delete "admin-A" "tm-4"
         (snd (TeamMemberService.create sampleOracle "admin-A" dave
                 sampleWorld))) = Ok ()
  ∧ table (snd (TeamMemberService.delete "admin-A" "tm-4"
                  (snd (TeamMemberService.create sampleOracle "admin-A" dave
                          sampleWorld))))
    = [jane; bob; carol].
Proof.
  exact (create_then_delete_restores_table sampleOracle "admin-A" dave
           sampleWorld dave_is_new).
Defined.

Lemma deactivate_then_reactivate_witness :
  table (snd (TeamMemberService.changeStatus "admin-B" "tm-2" DEACTIVATED
                sampleWorld)) !! 1%nat
  = Some (withStatus DEACTIVATED bob)
  ∧ table (snd (TeamMemberService.changeStatus "admin-B" "tm-2" ACTIVE
                  (snd (TeamMemberService.changeStatus "admin-B" "tm-2"
                          DEACTIVATED sampleWorld))))
    = [jane; bob; carol].
Proof.
  pose proof (deactivate_then_reactivate sampleWorld 1 bob sampleWorld_wf
                eq_refl eq_refl) as (_ & Hdeactivated & _ & Hrestored).
  split; [exact Hdeactivated|exact Hrestored].
Defined.

Lemma invite_setup_login_witness :
  fst (TeamMemberService.login sampleOracle "dave@x.com" "s3cret"
         (snd (TeamMemberService.createPassword "tok-new" "s3cret"
                 "dave@x.com"
                 (snd (TeamMemberService.create sampleOracle "admin-A" dave
                         sampleWorld)))))
  = Ok "jwt{tm-4,admin-A}secret/2 days".
Proof.
  pose proof (invite_setup_login sampleOracle sampleOracle "admin-A" "s3cret"
                dave sampleWorld dave_is_new eq_refl) as [_ Hlogin].
  exact (f_equal fst Hlogin).
Defined.

Lemma invite_token_is_single_use_witness :
  TeamMemberService.createPassword "tok-jane" "other" "bob@x.com"
    (snd (TeamMemberService.createPassword "tok-jane" "s3cret" "jane@x.com"
            sampleWorld))
  = (Throw (CustomError "Invalid Token" 400),
     snd (TeamMemberService.createPassword "tok-jane" "s3cret" "jane@x.com"
            sampleWorld)).
Proof.
  assert (TeamMember.inviteToken jane = Some (crypto_hash "tok-jane"))
    as Htoken by reflexivity.
  apply (invite_token_is_single_use "tok-jane" "s3cret" "other" "bob@x.com"
           sampleWorld 0 jane sampleWorld_wf eq_refl Htoken).
  intros j other Hj Hne. destruct j as [|[|[|j]]]; try done;
    injection Hj as <-; discriminate.
Defined.

Lemma delete_succeeds_iff_witness :
  fst (TeamMemberService.delete "admin-A" "tm-1" sampleWorld) = Ok ()
  ∧ ∀ tm', tm' ∈ table (snd (TeamMemberService.delete "admin-A" "tm-1"
                               sampleWorld)) →
           TeamMember.id tm' ≠ "tm-1".
Proof.
  destruct (delete_succeeds_iff "admin-A" "tm-1" sampleWorld sampleWorld_wf)
    as [Hiff Hgone].
  assert (fst (TeamMemberService.delete "admin-A" "tm-1" sampleWorld) = Ok ())
    as Hok.
  { apply Hiff. exists jane. split_and!; try reflexivity.
    apply list_elem_of_lookup. by exists 0. }
  split; [exact Hok|exact (Hgone Hok)].
Defined.

Lemma login_handler_validates_witness :
  TeamMemberController.login sampleOracle
    (adminRequest "" "" (mkBody None None (Some "bob@x.com") None None None
                           None))
    sampleWorld
  = (Throw (CustomError "All fields required: email and password" 400),
     sampleWorld)
  ∧ ∃ email password jwt,
      b_email (loginBody "bob@x.com" "bobs-secret") = Some email
      ∧ b_password (loginBody "bob@x.com" "bobs-secret") = Some password
      ∧ fst (TeamMemberService.login sampleOracle email password sampleWorld)
        = Ok jwt
      ∧ mkResponse 200 (Token "jwt{tm-2,admin-B}secret/2 days")
        = mkResponse 200 (Token jwt).
Proof.
  split.
  - by apply (login_handler_validates sampleOracle
                (adminRequest "" "" (mkBody None None (Some "bob@x.com") None
                                       None None None)) sampleWorld).
  - apply (login_handler_validates sampleOracle
             (loginRequest "bob@x.com" "bobs-secret") sampleWorld).
    vm_compute. reflexivity.
Defined.

Lemma deactivated_member_cannot_login_witness :
  fst (TeamMemberService.login sampleOracle "bob@x.com" "bobs-secret"
         (snd (TeamMemberService.changeStatus "admin-B" "tm-2" DEACTIVATED
                 sampleWorld)))
  = Throw (CustomError
      "Oops. You do not have an access to the platform anymore!" 401).
Proof.
  pose proof (deactivated_member_cannot_login sampleOracle "bobs-secret"
                sampleWorld 1 bob sampleWorld_wf eq_refl eq_refl) as Hlogin.
  exact (f_equal fst Hlogin).
Defined.

Lemma create_then_listed_witness :
  (∃ teamMembers,
     TeamMemberService.getAll "admin-A"
       (snd (TeamMemberService.create sampleOracle "admin-A" dave sampleWorld))
     = (Ok teamMembers,
        snd (TeamMemberService.create sampleOracle "admin-A" dave sampleWorld))
     ∧ select getAllSelect
         (newRow "tm-4" "admin-A" dave (crypto_hash "tok-new"))
       ∈ teamMembers)
  ∧ select getAllSelect (newRow "tm-4" "admin-A" dave (crypto_hash "tok-new"))
    !! "email" = Some (VString "dave@x.com").
Proof.
  pose proof (create_then_listed sampleOracle "admin-A" dave sampleWorld
                dave_is_new) as (Hlisted & _ & Hemail & _).
  split; [exact Hlisted|exact Hemail].
Defined.
